(** * The MySQL adapter of kosatnkn/adapters: named-parameter translation,
      parameter binding, statement execution and transaction wrapping.

    The development embeds [src/mysql/Adapter.go].  Go strings are byte
    strings, so query text is a [string] of 8-bit characters; maps of type
    [map[string]interface{}] are [gmap string Value]; the [database/sql]
    package is an interface the adapter is parametrised by; every call to it
    is recorded in a trace. *)

From Stdlib Require Import ZArith Ascii String List Lia Bool.
From stdpp Require Import gmap strings list.

Local Open Scope string_scope.
Local Open Scope list_scope.

(** ** Go values *)

(** [error] values are built by [fmt.Errorf] or come from the driver; only
    their message is observable. *)
Definition error := string.

(** A Go function returning [(T, error)] where exactly one side is set. *)
Inductive Res (A : Type) : Type :=
| Ok (a : A)
| Err (e : error).
Arguments Ok {A} a.
Arguments Err {A} e.

(** [interface{}] values that travel to and from the driver. *)
Inductive Value : Type :=
| VNil
| VBool (b : bool)
| VInt64 (n : Z)
| VString (s : string)
| VBytes (b : list Byte.byte).

(** ** Byte-level string primitives of the Go standard library *)

Module GoStrings.

Definition byte_in (lo hi : N) (c : ascii) : bool :=
  (lo <=? N_of_ascii c)%N && (N_of_ascii c <=? hi)%N.

Definition byte_is (n : N) (c : ascii) : bool := (N_of_ascii c =? n)%N.

(** [s[:n]]: a run-time panic when [n] exceeds [len(s)]. *)
Fixpoint take_bytes (n : nat) (s : string) : string :=
  match n, s with
  | S k, String c r => String c (take_bytes k r)
  | _, _ => ""
  end.

Definition slice_to (n : nat) (s : string) : option string :=
  if (n <=? String.length s)%nat then Some (take_bytes n s) else None.

(** [strings.ToLower], byte by byte.  Go lower-cases runes; the only
    non-ASCII runes whose lower case is an ASCII letter are U+0130 (to
    [i]) and U+212A (to [k]), so a comparison of the result with ["s"] or
    ["select"] is decided by the ASCII bytes alone, which is all the
    adapter does with it. *)
Definition lower_byte (c : ascii) : ascii :=
  if byte_in 65 90 c then ascii_of_N (N_of_ascii c + 32) else c.

Fixpoint ToLower (s : string) : string :=
  match s with
  | "" => ""
  | String c r => String (lower_byte c) (ToLower r)
  end.

(** White space as [unicode.IsSpace] has it, in UTF-8: the six ASCII
    characters, U+0085 and U+00A0 (two bytes), and U+1680, U+2000..U+200A,
    U+2028, U+2029, U+202F, U+205F, U+3000 (three bytes). *)
Definition space1 (c : ascii) : bool :=
  byte_in 9 13 c || byte_is 32 c.

Definition space2 (c1 c2 : ascii) : bool :=
  byte_is 194 c1 && (byte_is 133 c2 || byte_is 160 c2).

Definition space3 (c1 c2 c3 : ascii) : bool :=
  (byte_is 225 c1 && byte_is 154 c2 && byte_is 128 c3)
  || (byte_is 226 c1 && byte_is 128 c2
      && (byte_in 128 138 c3 || byte_is 168 c3 || byte_is 169 c3 || byte_is 175 c3))
  || (byte_is 226 c1 && byte_is 129 c2 && byte_is 159 c3)
  || (byte_is 227 c1 && byte_is 128 c2 && byte_is 128 c3).

(** Strips encoded white space from the front; [sp2] and [sp3] receive
    the bytes in reading order. *)
Fixpoint trim_front (sp2 : ascii -> ascii -> bool)
         (sp3 : ascii -> ascii -> ascii -> bool) (s : string) : string :=
  match s with
  | "" => ""
  | String c1 r1 =>
      if space1 c1 then trim_front sp2 sp3 r1
      else match r1 with
           | "" => s
           | String c2 r2 =>
               if sp2 c1 c2 then trim_front sp2 sp3 r2
               else match r2 with
                    | "" => s
                    | String c3 r3 =>
                        if sp3 c1 c2 c3 then trim_front sp2 sp3 r3 else s
                    end
           end
  end.

Fixpoint rev_onto (s acc : string) : string :=
  match s with
  | "" => acc
  | String c r => rev_onto r (String c acc)
  end.

Definition reverse (s : string) : string := rev_onto s "".

Definition TrimLeftSpace (s : string) : string := trim_front space2 space3 s.

(** From the back the encoded bytes are met last byte first. *)
Definition TrimRightSpace (s : string) : string :=
  reverse (trim_front (fun a b => space2 b a) (fun a b c => space3 c b a)
                      (reverse s)).

(** [strings.TrimSpace]. *)
Definition TrimSpace (s : string) : string := TrimRightSpace (TrimLeftSpace s).

Fixpoint has_prefix (p s : string) : option string :=
  match p, s with
  | "", _ => Some s
  | String a p', String b s' =>
      if Ascii.eqb a b then has_prefix p' s' else None
  | _, _ => None
  end.

(** [strings.TrimPrefix]. *)
Definition TrimPrefix (s p : string) : string :=
  match has_prefix p s with
  | Some r => r
  | None => s
  end.

Fixpoint count_byte (c : ascii) (s : string) : nat :=
  match s with
  | "" => 0
  | String d r => (if Ascii.eqb c d then 1 else 0) + count_byte c r
  end.

End GoStrings.
Export GoStrings.

(** ** The regular expression [\?\w+] *)

Module Regexp.

(** The adapter's marker, [pqPrefix: "?"] in [NewAdapter]. *)
Definition pqPrefix : ascii := "?"%char.

Definition is_marker (c : ascii) : bool := Ascii.eqb c pqPrefix.

(** [\w] is ASCII only in Go's syntax: [0-9A-Za-z_]. *)
Definition is_word (c : ascii) : bool :=
  byte_in 48 57 c || byte_in 65 90 c || byte_in 97 122 c || byte_is 95 c.

(** Longest run of word bytes at the front, and what follows it. *)
Fixpoint span_word (s : string) : string * string :=
  match s with
  | "" => ("", "")
  | String c r =>
      if is_word c
      then let '(w, rest) := span_word r in (String c w, rest)
      else ("", s)
  end.

(** A match of [\?\w+] anchored at the front of [s]: the matched text and
    the remainder.  [+] is greedy and nothing follows it in the pattern. *)
Definition match_here (s : string) : option (string * string) :=
  match s with
  | "" => None
  | String c r =>
      if is_marker c
      then match span_word r with
           | ("", _) => None
           | (w, rest) => Some (String c w, rest)
           end
      else None
  end.

(** The successive leftmost non-overlapping matches split the text into
    matched pieces and the single bytes between them. *)
Inductive Piece : Type :=
| Lit (c : ascii)
| Match (m : string).

Fixpoint pieces_fuel (fuel : nat) (s : string) : list Piece :=
  match fuel with
  | O => []
  | S n =>
      match s with
      | "" => []
      | String c r =>
          match match_here s with
          | Some (m, rest) => Match m :: pieces_fuel n rest
          | None => Lit c :: pieces_fuel n r
          end
      end
  end.

Definition pieces (s : string) : list Piece :=
  pieces_fuel (String.length s) s.

Definition match_text (p : Piece) : option string :=
  match p with
  | Match m => Some m
  | Lit _ => None
  end.

Definition piece_text (repl : string) (p : Piece) : string :=
  match p with
  | Match _ => repl
  | Lit c => String c ""
  end.

(** [exp.FindAllString(s, -1)]. *)
Definition FindAllString (s : string) : list string :=
  omap match_text (pieces s).

Fixpoint concat_text (l : list string) : string :=
  match l with
  | [] => ""
  | x :: r => x +:+ concat_text r
  end.

(** [exp.ReplaceAllString(s, repl)] for a [repl] without [$]. *)
Definition ReplaceAllString (s repl : string) : string :=
  concat_text (map (piece_text repl) (pieces s)).

End Regexp.
Export Regexp.

(** ** Query translation and parameter binding *)

(** The body of the [for i := 0; i < len(namedParams); i++] loop. *)
Definition strip_marker (m : string) : string := TrimPrefix m (String pqPrefix "").

(** [convertQuery]: trim, collect the matches, strip the marker from each,
    replace every match by the positional placeholder. *)
Definition convertQuery (query : string) : string * list string :=
  let query := TrimSpace query in
  let namedParams := FindAllString query in
  let namedParams := map strip_marker namedParams in
  let query := ReplaceAllString query "?" in
  (query, namedParams).

Definition missing_parameter (param : string) : error :=
  "mysql-adapter: parameter '" +:+ param +:+ "' is missing".

(** The [for ... range namedParams] loop of [reorderParameters];
    [reorderedParams] is the slice appended to so far. *)
Fixpoint reorder_loop (params : gmap string Value) (namedParams : list string)
         (reorderedParams : list Value) : Res (list Value) :=
  match namedParams with
  | [] => Ok reorderedParams
  | param :: rest =>
      match params !! param with
      | None => Err (missing_parameter param)
      | Some paramValue => reorder_loop params rest (reorderedParams ++ [paramValue])
      end
  end.

Definition reorderParameters (params : gmap string Value)
           (namedParams : list string) : Res (list Value) :=
  reorder_loop params namedParams [].

(** ** The [database/sql] interface and the calls made to it *)

Definition Tx := nat.
Definition Stmt := nat.

(** [sql.Result]: both methods return a value and an error. *)
Record SqlResult : Type := {
  LastInsertId : Z * option error;
  RowsAffected : Z * option error;
}.

(** [*sql.Rows] as the adapter reads it: the column names, and for every
    row that [Next] announces the outcome of [Scan]. *)
Record Rows : Type := {
  Columns : list string;
  scans : list (Res (list Value));
}.

Record SQL (W : Type) : Type := {
  pool_Begin : W -> Res Tx * W;
  pool_Prepare : string -> W -> Res Stmt * W;
  tx_Prepare : Tx -> string -> W -> Res Stmt * W;
  tx_Commit : Tx -> W -> option error * W;
  tx_Rollback : Tx -> W -> option error * W;
  stmt_Exec : Stmt -> list Value -> W -> Res SqlResult * W;
  stmt_Query : Stmt -> list Value -> W -> Res Rows * W;
  stmt_Close : Stmt -> W -> option error * W;
}.
Arguments pool_Begin {W} _ _.
Arguments pool_Prepare {W} _ _ _.
Arguments tx_Prepare {W} _ _ _ _.
Arguments tx_Commit {W} _ _ _.
Arguments tx_Rollback {W} _ _ _.
Arguments stmt_Exec {W} _ _ _ _.
Arguments stmt_Query {W} _ _ _ _.
Arguments stmt_Close {W} _ _ _.

Inductive Event : Type :=
| EvBegin (r : Res Tx)
| EvCommit (tx : Tx)
| EvRollback (tx : Tx)
| EvPrepare (on : option Tx) (query : string) (r : Res Stmt)
| EvExec (stmt : Stmt) (args : list Value) (r : Res SqlResult)
| EvQuery (stmt : Stmt) (args : list Value) (r : Res Rows)
| EvClose (stmt : Stmt).

(** Calls that open or finalise a transaction. *)
Definition is_begin (e : Event) : bool :=
  match e with EvBegin (Ok _) => true | _ => false end.

Definition is_finalise (e : Event) : bool :=
  match e with EvCommit _ | EvRollback _ => true | _ => false end.

Definition is_tx_call (e : Event) : bool :=
  match e with EvBegin _ | EvCommit _ | EvRollback _ => true | _ => false end.

(** Calls that run a statement. *)
Definition is_execution (e : Event) : bool :=
  match e with EvExec _ _ _ | EvQuery _ _ _ => true | _ => false end.

Definition tx_calls (t : list Event) : list Event := List.filter is_tx_call t.
Definition count_ev (p : Event -> bool) (t : list Event) : nat :=
  List.length (List.filter p t).

(** ** Signed 64-bit arithmetic *)

Definition int64_min : Z := - 2 ^ 63.
Definition int64_max : Z := 2 ^ 63 - 1.
Definition wrap64 (z : Z) : Z := (z + 2 ^ 63) mod 2 ^ 64 - 2 ^ 63.
Definition add64 (a b : Z) : Z := wrap64 (a + b).

(** ** Result sets *)

Abbreviation Row := (gmap string Value).
Abbreviation ResultSet := (list (gmap string Value)).

(** [formatResultSet]. *)
Definition formatResultSet (id aff : Z) : ResultSet :=
  let data : ResultSet := [] in
  let row : Row := ∅ in
  let row := <["affected_rows" := VInt64 aff]> row in
  let row := <["last_insert_id" := VInt64 id]> row in
  data ++ [row].

(** [prepareResultSet]. *)
Definition prepareResultSet (result : SqlResult) : Res ResultSet :=
  match LastInsertId result with
  | (_, Some err) => Err err
  | (id, None) =>
      match RowsAffected result with
      | (_, Some err) => Err err
      | (aff, None) => Ok (formatResultSet id aff)
      end
  end.

(** The inner [for i, colName := range cols] loop of [prepareDataSet]:
    [columns] holds the scanned values from index [i] on. *)
Fixpoint fill_row (cols : list string) (columns : list Value) (row : Row) : Row :=
  match cols with
  | [] => row
  | colName :: cols' =>
      fill_row cols' (tail columns) (<[colName := hd VNil columns]> row)
  end.

(** The [for rows.Next()] loop of [prepareDataSet]. *)
Fixpoint dataset_loop (cols : list string) (rs : list (Res (list Value)))
         (data : ResultSet) : Res ResultSet :=
  match rs with
  | [] => Ok data
  | Err err :: _ => Err err
  | Ok columns :: rs' => dataset_loop cols rs' (data ++ [fill_row cols columns ∅])
  end.

(** [prepareDataSet]. *)
Definition prepareDataSet (rows : Rows) : Res ResultSet :=
  dataset_loop (Columns rows) (scans rows) [].

(** ** Execution contexts *)

(** [context.Context], of which the adapter reads and writes the binding of
    [internal.TxKey] only. *)
Record Context : Type := { tx_binding : option Tx }.

Definition Background : Context := {| tx_binding := None |}.
Definition ctx_Value (ctx : Context) : option Tx := tx_binding ctx.
Definition WithValue (ctx : Context) (tx : Tx) : Context := {| tx_binding := Some tx |}.

(** ** The adapter over an arbitrary backend *)

(** What a call can come to: a normal return or a run-time panic. *)
Inductive Outcome (A : Type) : Type :=
| Ret (a : A)
| Panic (msg : string).
Arguments Ret {A} a.
Arguments Panic {A} msg.

Section Adapter.

Context {W : Type} (db : SQL W).

(** The backend and the calls made to it so far, oldest first. *)
Record State : Type := { world : W; trace : list Event }.

Definition M (A : Type) : Type := State -> Outcome A * State.

Definition ret {A} (a : A) : M A := fun st => (Ret a, st).

Definition bind {A B} (m : M A) (k : A -> M B) : M B :=
  fun st =>
    match m st with
    | (Ret a, st') => k a st'
    | (Panic msg, st') => (Panic msg, st')
    end.

Definition panic {A} (msg : string) : M A := fun st => (Panic msg, st).

(** A call to the backend, recorded with its outcome. *)
Definition call {A} (op : W -> A * W) (ev : A -> Event) : M A :=
  fun st =>
    let '(a, w) := op (world st) in
    (Ret a, {| world := w; trace := trace st ++ [ev a] |}).

(** [defer d] before [body]: [d] runs when [body] is left, panic or not. *)
Definition defer {A B} (d : M B) (body : M A) : M A :=
  fun st =>
    let '(o, st') := body st in
    (o, snd (d st')).

Notation "x <- m ;; k" := (bind m (fun x => k))
  (at level 100, m at next level, right associativity).

Definition Begin : M (Res Tx) := call (pool_Begin db) EvBegin.
Definition Commit (tx : Tx) : M (option error) :=
  call (tx_Commit db tx) (fun _ => EvCommit tx).
Definition Rollback (tx : Tx) : M (option error) :=
  call (tx_Rollback db tx) (fun _ => EvRollback tx).
Definition Exec (stmt : Stmt) (args : list Value) : M (Res SqlResult) :=
  call (stmt_Exec db stmt args) (EvExec stmt args).
Definition RunQuery (stmt : Stmt) (args : list Value) : M (Res Rows) :=
  call (stmt_Query db stmt args) (EvQuery stmt args).
Definition Close (stmt : Stmt) : M (option error) :=
  call (stmt_Close db stmt) (fun _ => EvClose stmt).

(** [prepareStatement]. *)
Definition prepareStatement (ctx : Context) (query : string) : M (Res Stmt) :=
  match ctx_Value ctx with
  | Some tx => call (tx_Prepare db tx query) (EvPrepare (Some tx) query)
  | None => call (pool_Prepare db query) (EvPrepare None query)
  end.

Definition slice_panic : string := "slice bounds out of range".

(** [Query]. *)
Definition Query (ctx : Context) (query : string)
           (params : gmap string Value) : M (Res ResultSet) :=
  let '(convertedQuery, placeholders) := convertQuery query in
  match reorderParameters params placeholders with
  | Err err => ret (Err err)
  | Ok reorderedParams =>
      s <- prepareStatement ctx convertedQuery ;;
      match s with
      | Err err => ret (Err err)
      | Ok stmt =>
          defer (Close stmt)
            match slice_to 1 convertedQuery with
            | None => panic slice_panic
            | Some head =>
                if String.eqb (ToLower head) "s"
                then
                  r <- RunQuery stmt reorderedParams ;;
                  match r with
                  | Err err => ret (Err err)
                  | Ok rows => ret (prepareDataSet rows)
                  end
                else
                  r <- Exec stmt reorderedParams ;;
                  match r with
                  | Err err => ret (Err err)
                  | Ok result => ret (prepareResultSet result)
                  end
            end
      end
  end.

Definition select_not_allowed : error :=
  "mysql-adapter: select queries are not allowed. use Query() instead".

(** The [for _, pms := range params] loop of [QueryBulk]. *)
Fixpoint bulk_loop (stmt : Stmt) (placeholders : list string)
         (params : list (gmap string Value)) (lastID affRows : Z)
  : M (Res ResultSet) :=
  match params with
  | [] => ret (Ok (formatResultSet lastID affRows))
  | pms :: rest =>
      match reorderParameters pms placeholders with
      | Err err => ret (Err err)
      | Ok reorderedParams =>
          r <- Exec stmt reorderedParams ;;
          match r with
          | Err err => ret (Err err)
          | Ok result =>
              let lastID := fst (LastInsertId result) in
              let ar := fst (RowsAffected result) in
              bulk_loop stmt placeholders rest lastID (add64 affRows ar)
          end
      end
  end.

(** [QueryBulk]. *)
Definition QueryBulk (ctx : Context) (query : string)
           (params : list (gmap string Value)) : M (Res ResultSet) :=
  let '(convertedQuery, placeholders) := convertQuery query in
  match slice_to 6 convertedQuery with
  | None => panic slice_panic
  | Some head =>
      if String.eqb (ToLower head) "select"
      then ret (Err select_not_allowed)
      else
        s <- prepareStatement ctx convertedQuery ;;
        match s with
        | Err err => ret (Err err)
        | Ok stmt => defer (Close stmt) (bulk_loop stmt placeholders params 0 0)
        end
  end.

(** [attachTx]. *)
Definition attachTx (ctx : Context) : M (Res Context) :=
  match ctx_Value ctx with
  | Some _ => ret (Ok ctx)
  | None =>
      r <- Begin ;;
      match r with
      | Err err => ret (Err err)
      | Ok tx => ret (Ok (WithValue ctx tx))
      end
  end.

(** [WrapInTx].  [fn] returns a Go pair [(res, err)]. *)
Definition WrapInTx {R} (ctx : Context)
           (fn : Context -> M (R * option error)) : M (Res R) :=
  a <- attachTx ctx ;;
  match a with
  | Err err => ret (Err err)
  | Ok ctx =>
      match ctx_Value ctx with
      | None => panic "interface conversion: interface {} is nil, not *sql.Tx"
      | Some tx =>
          r <- fn ctx ;;
          match snd r with
          | Some err => _ <- Rollback tx ;; ret (Err err)
          | None => _ <- Commit tx ;; ret (Ok (fst r))
          end
      end
  end.

End Adapter.

Arguments State : clear implicits.
Arguments M : clear implicits.

Notation "x <- m ;; k" := (bind m (fun x => k))
  (at level 100, m at next level, right associativity).

(** ** Named-parameter tokens, as the data model describes them *)

Definition starts_word (s : string) : bool :=
  match s with
  | "" => false
  | String c _ => is_word c
  end.

(** Every marker that is directly followed by an identifier character
    introduces a token; its name is the longest run of identifier
    characters after the marker.  Names are listed left to right. *)
Fixpoint named_tokens (s : string) : list string :=
  match s with
  | "" => []
  | String c r =>
      if is_marker c && starts_word r
      then fst (span_word r) :: named_tokens r
      else named_tokens r
  end.

(** Markers that introduce no token. *)
Fixpoint bare_markers (s : string) : nat :=
  match s with
  | "" => 0
  | String c r =>
      (if is_marker c && negb (starts_word r) then 1 else 0) + bare_markers r
  end.

(** Bytes that are neither the marker nor identifier characters. *)
Definition neutral (c : ascii) : bool := negb (is_marker c) && negb (is_word c).

Fixpoint all_neutral (s : string) : bool :=
  match s with
  | "" => true
  | String c r => neutral c && all_neutral r
  end.

(** ** Statements of the transaction and batch properties *)

Section Protocol.

Context {W : Type} (db : SQL W).

(** A computation that returns normally and makes no begin, commit or
    rollback call of its own. *)
Definition tx_quiet {A} (m : M W A) : Prop :=
  forall st, exists a st',
    m st = (Ret a, st') /\ tx_calls (trace st') = tx_calls (trace st).

(** A unit of work that calls [WrapInTx] with the context handed to it,
    between arbitrary work of its own: the shape of the nested tests. *)
Definition nested {A R1 R2} (pre : Context -> M W A)
           (f2 : Context -> M W (R2 * option error))
           (post : A -> Res R2 -> Context -> M W (R1 * option error))
  : Context -> M W (R1 * option error) :=
  fun ctx =>
    a <- pre ctx ;;
    r2 <- WrapInTx db ctx f2 ;;
    post a r2 ctx.

(** The call a frame finalises with, given what its function came to. *)
Definition finalise_call {R} (r : Res R) (tx : Tx) : Event :=
  match r with
  | Ok _ => EvCommit tx
  | Err _ => EvRollback tx
  end.

(** Binding and executing every mapping of a batch in turn succeeds, with
    these receipts. *)
Fixpoint receipts (stmt : Stmt) (placeholders : list string)
         (params : list (gmap string Value)) (w : W) : option (list SqlResult * W) :=
  match params with
  | [] => Some ([], w)
  | pms :: rest =>
      match reorderParameters pms placeholders with
      | Err _ => None
      | Ok args =>
          match stmt_Exec db stmt args w with
          | (Err _, _) => None
          | (Ok r, w') =>
              match receipts stmt placeholders rest w' with
              | None => None
              | Some (rs, w'') => Some (r :: rs, w'')
              end
          end
      end
  end.

End Protocol.

(** The exact sum of the affected-row counts of a batch. *)
Definition total_affected (rs : list SqlResult) : Z :=
  fold_right (fun r acc => fst (RowsAffected r) + acc)%Z 0%Z rs.

(** The identifier of the last execution, the zero value for no execution. *)
Definition final_insert_id (rs : list SqlResult) : Z :=
  match last rs with
  | Some r => fst (LastInsertId r)
  | None => 0
  end.

(** The text begins with [select], in any mix of ASCII cases. *)
Definition begins_with_select (s : string) : Prop :=
  exists head rest, s = head +:+ rest /\ ToLower head = "select".

(** ** A small backend to run the adapter on *)

Module Mock.

Record World : Type := {
  begin_error : option error;
  next_handle : nat;
  next_id : Z;
  finished : list Tx;
}.

Definition bump (w : World) : World :=
  {| begin_error := begin_error w; next_handle := S (next_handle w);
     next_id := next_id w; finished := finished w |}.

Definition begin (w : World) : Res Tx * World :=
  match begin_error w with
  | Some err => (Err err, w)
  | None => (Ok (next_handle w), bump w)
  end.

Definition prepare (query : string) (w : World) : Res Stmt * World :=
  (Ok (next_handle w), bump w).

Definition tx_done : error :=
  "sql: transaction has already been committed or rolled back".

(** As with [sql.Tx], only the first commit or rollback takes effect. *)
Definition finish (tx : Tx) (w : World) : option error * World :=
  if existsb (Nat.eqb tx) (finished w)
  then (Some tx_done, w)
  else (None, {| begin_error := begin_error w; next_handle := next_handle w;
                 next_id := next_id w; finished := tx :: finished w |}).

(** Every execution generates the next identifier; it affects as many rows
    as its first argument says, one row otherwise. *)
Definition exec (stmt : Stmt) (args : list Value) (w : World) : Res SqlResult * World :=
  let aff := match args with VInt64 n :: _ => n | _ => 1%Z end in
  (Ok {| LastInsertId := ((next_id w + 1)%Z, None); RowsAffected := (aff, None) |},
   {| begin_error := begin_error w; next_handle := next_handle w;
      next_id := (next_id w + 1)%Z; finished := finished w |}).

(** Reads find an empty table. *)
Definition query (stmt : Stmt) (args : list Value) (w : World) : Res Rows * World :=
  (Ok {| Columns := ["id"; "name"; "password"]; scans := [] |}, w).

Definition close (stmt : Stmt) (w : World) : option error * World := (None, w).

Definition sql : SQL World :=
  {| pool_Begin := begin;
     pool_Prepare := prepare;
     tx_Prepare := fun _ => prepare;
     tx_Commit := finish;
     tx_Rollback := finish;
     stmt_Exec := exec;
     stmt_Query := query;
     stmt_Close := close |}.

Definition start : State World :=
  {| world := {| begin_error := None; next_handle := 0; next_id := 0; finished := [] |};
     trace := [] |}.

Definition unreachable : State World :=
  {| world := {| begin_error := Some "driver: bad connection"; next_handle := 0;
                 next_id := 0; finished := [] |};
     trace := [] |}.

Definition sample_params : gmap string Value :=
  <["name" := VString "a"]> (<["password" := VString "b"]> ∅).

Definition insert_sample : string :=
  "insert into sample(name, password) values (?name, ?password)".

(** One insert inside a nested [WrapInTx], one after it, as in the nested
    tests. *)
Definition inner_insert (ctx : Context) : M World (ResultSet * option error) :=
  r <- Query sql ctx insert_sample sample_params ;;
  match r with
  | Ok rs => ret (rs, None)
  | Err err => ret ([], Some err)
  end.

Definition outer_insert (ctx : Context) : M World (ResultSet * option error) :=
  r2 <- WrapInTx sql ctx inner_insert ;;
  match r2 with
  | Err err => ret ([], Some err)
  | Ok _ =>
      r <- Query sql ctx insert_sample sample_params ;;
      match r with
      | Ok rs => ret (rs, None)
      | Err err => ret ([], Some err)
      end
  end.

End Mock.

(** ** Shapes of calls and callers used in the further properties *)

(** Calls that concern a prepared statement. *)
Definition is_statement_call (e : Event) : bool :=
  match e with
  | EvPrepare _ _ _ | EvExec _ _ _ | EvQuery _ _ _ | EvClose _ => true
  | _ => false
  end.

(** An execution of the mutation kind through [stmt]. *)
Definition is_exec_of (stmt : Stmt) (e : Event) : bool :=
  match e with
  | EvExec s _ _ => Nat.eqb s stmt
  | _ => false
  end.

(** Every byte of the name is an identifier character. *)
Fixpoint all_word (s : string) : bool :=
  match s with
  | "" => true
  | String c r => is_word c && all_word r
  end.

(** The summed length of names. *)
Definition total_length (names : list string) : nat :=
  fold_right (fun n acc => String.length n + acc) 0 names.

(** The rewriting [ReplaceAllString] does with the placeholder, on fuel. *)
Definition rewritten (n : nat) (s : string) : string :=
  concat_text (map (piece_text "?") (pieces_fuel n s)).

Section Forwarding.

Context {W : Type} (db : SQL W) {R : Type} (nil : R).

(** [return a.WrapInTx(ctx, fn)]: the pair a Go caller hands on. *)
Definition as_pair (r : Res R) : R * option error :=
  match r with
  | Ok v => (v, None)
  | Err err => (nil, Some err)
  end.

(** [n] frames that each only forward to [WrapInTx] with the context they
    were handed, around the unit of work [f]. *)
Fixpoint tower (n : nat) (f : Context -> M W (R * option error))
         (ctx : Context) : M W (R * option error) :=
  match n with
  | O => f ctx
  | S k => r <- WrapInTx db ctx (tower k f) ;; ret (as_pair r)
  end.

End Forwarding.

(** ** Backends that fail *)

Module Faulty.

Definition no_such_table : error :=
  "Error 1146: Table 'sample.non_existant_table' doesn't exist".

(** A backend that refuses to prepare any statement. *)
Definition refusing : SQL Mock.World :=
  {| pool_Begin := Mock.begin;
     pool_Prepare := fun _ w => (Err no_such_table, w);
     tx_Prepare := fun _ _ w => (Err no_such_table, w);
     tx_Commit := Mock.finish;
     tx_Rollback := Mock.finish;
     stmt_Exec := Mock.exec;
     stmt_Query := Mock.query;
     stmt_Close := Mock.close |}.

Definition duplicate_entry : error :=
  "Error 1062: Duplicate entry 'a' for key 'name'".

(** A backend on which the executions after the [k]-th fail. *)
Definition failing_after (k : Z) : SQL Mock.World :=
  {| pool_Begin := Mock.begin;
     pool_Prepare := Mock.prepare;
     tx_Prepare := fun _ => Mock.prepare;
     tx_Commit := Mock.finish;
     tx_Rollback := Mock.finish;
     stmt_Exec := fun stmt args w =>
                    if (Mock.next_id w <? k)%Z then Mock.exec stmt args w
                    else (Err duplicate_entry, w);
     stmt_Query := Mock.query;
     stmt_Close := Mock.close |}.

(** A unit of work that runs a statement without text. *)
Definition empty_query (ctx : Context) : M Mock.World (ResultSet * option error) :=
  r <- Query Mock.sql ctx "" ∅ ;;
  match r with
  | Ok rs => ret (rs, None)
  | Err err => ret ([], Some err)
  end.

(** The small backend right after it prepared its first statement. *)
Definition prepared (on : option Tx) (query : string) : State Mock.World :=
  {| world := Mock.bump (world Mock.start); trace := [EvPrepare on query (Ok 0)] |}.

Definition name_only : gmap string Value := <["name" := VString "c"]> ∅.

End Faulty.

(** * Properties *)

(** ** The translator *)

Section TranslatorFacts.

Lemma is_marker_eq c : is_marker c = true -> c = pqPrefix.
Proof. unfold is_marker. apply Ascii.eqb_eq. Qed.

Lemma word_not_marker c : is_word c = true -> is_marker c = false.
Proof.
  destruct c as [[] [] [] [] [] [] [] []]; vm_compute; congruence.
Qed.

Lemma span_word_app r : r = fst (span_word r) +:+ snd (span_word r).
Proof.
  induction r as [|c r IH]; simpl; [reflexivity|].
  destruct (is_word c); [|reflexivity].
  destruct (span_word r) as [w rest]; simpl in *. exact (f_equal (String c) IH).
Qed.

Lemma span_word_empty r : fst (span_word r) = "" <-> starts_word r = false.
Proof.
  destruct r as [|c r]; simpl; [tauto|].
  destruct (is_word c); [|tauto].
  destruct (span_word r); simpl. split; discriminate.
Qed.

Lemma span_word_length r : String.length (snd (span_word r)) <= String.length r.
Proof.
  induction r as [|c r IH]; simpl; [lia|].
  destruct (is_word c); simpl; [|lia].
  destruct (span_word r); simpl in *. lia.
Qed.

Lemma named_tokens_span r : named_tokens (snd (span_word r)) = named_tokens r.
Proof.
  induction r as [|c r IH]; simpl; [reflexivity|].
  destruct (is_word c) eqn:Hc; simpl.
  - rewrite (word_not_marker c Hc). simpl.
    destruct (span_word r); simpl in *. exact IH.
  - reflexivity.
Qed.

Lemma count_marker_span r :
  count_byte pqPrefix (snd (span_word r)) = count_byte pqPrefix r.
Proof.
  induction r as [|c r IH]; cbn [span_word count_byte]; [reflexivity|].
  destruct (is_word c) eqn:Hc; [|reflexivity].
  apply word_not_marker in Hc. unfold is_marker in Hc.
  rewrite Ascii.eqb_sym in Hc. rewrite Hc.
  destruct (span_word r); simpl in *. exact IH.
Qed.

(** What [match_here] finds, in terms of the token description. *)
Lemma match_here_some s m rest :
  match_here s = Some (m, rest) ->
  exists r, s = String pqPrefix r /\ starts_word r = true
            /\ m = String pqPrefix (fst (span_word r)) /\ rest = snd (span_word r).
Proof.
  destruct s as [|c r]; simpl; [discriminate|].
  destruct (is_marker c) eqn:Hc; [|discriminate].
  apply is_marker_eq in Hc. subst c.
  destruct (span_word r) as [w t] eqn:Hs.
  destruct w as [|d w]; [discriminate|].
  intros [= <- <-]. exists r. repeat split.
  - destruct (starts_word r) eqn:Hw; [reflexivity|].
    apply span_word_empty in Hw. rewrite Hs in Hw. discriminate.
  - now rewrite Hs.
  - now rewrite Hs.
Qed.

Lemma match_here_none c r :
  match_here (String c r) = None -> is_marker c && starts_word r = false.
Proof.
  simpl. destruct (is_marker c); [|reflexivity].
  destruct (span_word r) as [w t] eqn:Hs.
  destruct w; [|discriminate]. intros _. simpl.
  apply span_word_empty. now rewrite Hs.
Qed.

Lemma names_fuel n : forall s,
  String.length s <= n ->
  map strip_marker (omap match_text (pieces_fuel n s)) = named_tokens s.
Proof.
  induction n as [|n IH]; intros [|c r] Hlen; simpl in Hlen; try lia; try reflexivity.
  cbn [pieces_fuel].
  destruct (match_here (String c r)) as [[m rest]|] eqn:Hm.
  - apply match_here_some in Hm as (r' & [= -> ->] & Hw & -> & ->).
    cbn [omap list_omap match_text map named_tokens].
    unfold is_marker at 1. rewrite Ascii.eqb_refl, Hw. cbn [andb].
    f_equal.
    rewrite IH by (pose proof (span_word_length r'); lia).
    apply named_tokens_span.
  - apply match_here_none in Hm.
    cbn [omap list_omap match_text named_tokens]. rewrite Hm.
    apply IH. lia.
Qed.

Lemma count_byte_app c a b :
  count_byte c (a +:+ b) = count_byte c a + count_byte c b.
Proof. induction a as [|d a IH]; simpl; [reflexivity|]. rewrite IH. lia. Qed.

Lemma replace_count_fuel n : forall s,
  String.length s <= n ->
  count_byte pqPrefix (concat_text (map (piece_text "?") (pieces_fuel n s)))
  = count_byte pqPrefix s.
Proof.
  induction n as [|n IH]; intros [|c r] Hlen; simpl in Hlen; try lia; try reflexivity.
  cbn [pieces_fuel].
  destruct (match_here (String c r)) as [[m rest]|] eqn:Hm.
  - apply match_here_some in Hm as (r' & [= -> ->] & Hw & -> & ->).
    cbn [map piece_text concat_text]. rewrite count_byte_app.
    rewrite IH by (pose proof (span_word_length r'); lia).
    rewrite count_marker_span. reflexivity.
  - cbn [map piece_text concat_text]. rewrite count_byte_app.
    rewrite IH by lia. cbn [count_byte]. lia.
Qed.

Lemma replace_id_fuel n : forall s,
  String.length s <= n ->
  named_tokens s = [] ->
  concat_text (map (piece_text "?") (pieces_fuel n s)) = s.
Proof.
  induction n as [|n IH]; intros [|c r] Hlen Hnone; simpl in Hlen; try lia; try reflexivity.
  cbn [pieces_fuel].
  destruct (match_here (String c r)) as [[m rest]|] eqn:Hm.
  - apply match_here_some in Hm as (r' & [= -> ->] & Hw & -> & ->).
    cbn [named_tokens] in Hnone. unfold is_marker in Hnone at 1.
    rewrite Ascii.eqb_refl, Hw in Hnone. discriminate.
  - apply match_here_none in Hm. cbn [named_tokens] in Hnone.
    rewrite Hm in Hnone. cbn [map piece_text concat_text].
    rewrite IH by (assumption || lia). reflexivity.
Qed.

Lemma count_tokens_bare s :
  count_byte pqPrefix s = List.length (named_tokens s) + bare_markers s.
Proof.
  induction s as [|c r IH]; cbn [count_byte named_tokens bare_markers]; [reflexivity|].
  unfold is_marker. rewrite (Ascii.eqb_sym c pqPrefix).
  destruct (Ascii.eqb pqPrefix c); destruct (starts_word r); simpl; lia.
Qed.

Example convert_insert :
  convertQuery "insert into sample(name, password) values (?name, ?password)"
  = ("insert into sample(name, password) values (?, ?)", ["name"; "password"]).
Proof. vm_compute. reflexivity. Qed.

Example convert_trims :
  convertQuery "  select * from t where a = ?a and b = ?a  "
  = ("select * from t where a = ? and b = ?", ["a"; "a"]).
Proof. vm_compute. reflexivity. Qed.

(** *** White space is neutral for tokens *)

Lemma space1_neutral c : space1 c = true -> neutral c = true.
Proof. destruct c as [[] [] [] [] [] [] [] []]; vm_compute; congruence. Qed.

Lemma high_neutral c : (128 <= N_of_ascii c)%N -> neutral c = true.
Proof.
  destruct c as [[] [] [] [] [] [] [] []]; vm_compute; try reflexivity;
    intros H; exfalso; apply H; reflexivity.
Qed.

Lemma byte_is_high n c : (128 <= n)%N -> byte_is n c = true -> neutral c = true.
Proof.
  unfold byte_is. intros Hn H. apply N.eqb_eq in H. apply high_neutral. lia.
Qed.

Lemma byte_in_high lo hi c : (128 <= lo)%N -> byte_in lo hi c = true -> neutral c = true.
Proof.
  unfold byte_in. intros Hn H. apply andb_true_iff in H as [H _].
  apply N.leb_le in H. apply high_neutral. lia.
Qed.

Ltac high_bytes :=
  repeat match goal with
         | H : _ && _ = true |- _ => apply andb_true_iff in H as [? ?]
         | H : _ || _ = true |- _ => apply orb_true_iff in H as [?|?]
         end;
  repeat match goal with
         | |- _ && _ = true => apply andb_true_iff; split
         end;
  solve [ eapply byte_is_high; [|eassumption]; lia
        | eapply byte_in_high; [|eassumption]; lia ].

Lemma space2_neutral a b : space2 a b = true -> neutral a && neutral b = true.
Proof. unfold space2. intros H. high_bytes. Qed.

Lemma space3_neutral a b c :
  space3 a b c = true -> neutral a && neutral b && neutral c = true.
Proof. unfold space3. intros H. high_bytes. Qed.

Lemma append_assoc3 (a b c : string) : (a +:+ b) +:+ c = a +:+ (b +:+ c).
Proof. induction a as [|x a IH]; [reflexivity|]. exact (f_equal (String x) IH). Qed.

Lemma append_empty_r (a : string) : a +:+ "" = a.
Proof. induction a as [|x a IH]; [reflexivity|]. exact (f_equal (String x) IH). Qed.

Lemma rev_onto_spec s : forall acc, rev_onto s acc = reverse s +:+ acc.
Proof.
  unfold reverse. induction s as [|c r IH]; intros acc; simpl; [reflexivity|].
  rewrite (IH (String c "")), (IH (String c acc)), append_assoc3. reflexivity.
Qed.

Lemma reverse_cons c r : reverse (String c r) = reverse r +:+ String c "".
Proof. unfold reverse at 1. simpl. apply rev_onto_spec. Qed.

Lemma reverse_app a b : reverse (a +:+ b) = reverse b +:+ reverse a.
Proof.
  induction a as [|c a IH].
  - change (reverse b = reverse b +:+ ""). now rewrite append_empty_r.
  - change (reverse (String c (a +:+ b)) = reverse b +:+ reverse (String c a)).
    rewrite !reverse_cons, IH, append_assoc3. reflexivity.
Qed.

Lemma reverse_involutive s : reverse (reverse s) = s.
Proof.
  induction s as [|c r IH]; [reflexivity|].
  rewrite reverse_cons, reverse_app, IH. reflexivity.
Qed.

Lemma all_neutral_app a b :
  all_neutral (a +:+ b) = all_neutral a && all_neutral b.
Proof.
  induction a as [|c a IH]; [reflexivity|].
  change (neutral c && all_neutral (a +:+ b)
          = neutral c && all_neutral a && all_neutral b).
  rewrite IH. now rewrite andb_assoc.
Qed.

Lemma all_neutral_reverse s : all_neutral (reverse s) = all_neutral s.
Proof.
  induction s as [|c r IH]; [reflexivity|].
  rewrite reverse_cons, all_neutral_app, IH. simpl.
  rewrite andb_true_r. apply andb_comm.
Qed.

(** [trim_front] removes a prefix of neutral bytes and nothing else. *)
Lemma trim_front_split sp2 sp3 :
  (forall a b, sp2 a b = true -> neutral a && neutral b = true) ->
  (forall a b c, sp3 a b c = true -> neutral a && neutral b && neutral c = true) ->
  forall n s, String.length s <= n ->
    exists ws, s = ws +:+ trim_front sp2 sp3 s /\ all_neutral ws = true.
Proof.
  intros H2 H3. induction n as [|n IH]; intros s Hlen.
  - destruct s; [|simpl in Hlen; lia]. exists "". split; reflexivity.
  - destruct s as [|c1 r1]; [exists ""; split; reflexivity|].
    simpl in Hlen. cbn [trim_front].
    destruct (space1 c1) eqn:E1.
    { destruct (IH r1 ltac:(lia)) as (ws & Hs & Hn).
      exists (String c1 ws). split; [exact (f_equal (String c1) Hs)|].
      simpl. now rewrite (space1_neutral _ E1), Hn. }
    destruct r1 as [|c2 r2]; [exists ""; split; reflexivity|].
    simpl in Hlen.
    destruct (sp2 c1 c2) eqn:E2.
    { destruct (IH r2 ltac:(lia)) as (ws & Hs & Hn).
      exists (String c1 (String c2 ws)).
      split; [exact (f_equal (fun x => String c1 (String c2 x)) Hs)|].
      simpl. apply H2 in E2. apply andb_true_iff in E2 as [-> ->]. exact Hn. }
    destruct r2 as [|c3 r3]; [exists ""; split; reflexivity|].
    simpl in Hlen.
    destruct (sp3 c1 c2 c3) eqn:E3.
    { destruct (IH r3 ltac:(lia)) as (ws & Hs & Hn).
      exists (String c1 (String c2 (String c3 ws))).
      split; [exact (f_equal (fun x => String c1 (String c2 (String c3 x))) Hs)|].
      simpl. apply H3 in E3. apply andb_true_iff in E3 as [E3 ->].
      apply andb_true_iff in E3 as [-> ->]. exact Hn. }
    exists "". split; reflexivity.
Qed.

(** The query text is its trimmed form between two runs of neutral bytes. *)
Lemma TrimSpace_split q :
  exists ws1 ws2, q = ws1 +:+ TrimSpace q +:+ ws2
                  /\ all_neutral ws1 = true /\ all_neutral ws2 = true.
Proof.
  unfold TrimSpace, TrimRightSpace, TrimLeftSpace.
  destruct (trim_front_split space2 space3 space2_neutral space3_neutral
              _ q (le_n _)) as (ws1 & Hq & H1).
  set (t := trim_front space2 space3 q) in *.
  destruct (trim_front_split (fun a b => space2 b a) (fun a b c => space3 c b a)
              (fun a b H => eq_trans (andb_comm _ _) (space2_neutral b a H))
              (fun a b c H => eq_trans (eq_trans (andb_comm _ _)
                                 (eq_trans (f_equal (andb (neutral c)) (andb_comm _ _))
                                           (andb_assoc _ _ _)))
                                       (space3_neutral c b a H))
              _ (reverse t) (le_n _)) as (ws2 & Ht & H2).
  exists ws1, (reverse ws2). split; [|split].
  - rewrite Hq at 1. f_equal.
    rewrite <- (reverse_involutive t) at 1. rewrite Ht at 1.
    apply reverse_app.
  - exact H1.
  - now rewrite all_neutral_reverse.
Qed.

Lemma neutral_head c : neutral c = true -> is_marker c = false /\ is_word c = false.
Proof.
  unfold neutral. intros H. apply andb_true_iff in H as [H1 H2].
  now destruct (is_marker c), (is_word c).
Qed.

Lemma named_tokens_prefix ws s :
  all_neutral ws = true -> named_tokens (ws +:+ s) = named_tokens s.
Proof.
  induction ws as [|c ws IH]; intros H; [reflexivity|].
  simpl in H. apply andb_true_iff in H as [Hc Hws].
  change (named_tokens (String c (ws +:+ s)) = named_tokens s).
  cbn [named_tokens]. destruct (neutral_head c Hc) as [-> _]. simpl. auto.
Qed.

Lemma starts_word_suffix r ws :
  all_neutral ws = true -> starts_word (r +:+ ws) = starts_word r.
Proof.
  intros H. destruct r as [|c r]; [|reflexivity].
  destruct ws as [|d ws]; [reflexivity|].
  simpl in H. apply andb_true_iff in H as [Hd _].
  exact (proj2 (neutral_head d Hd)).
Qed.

Lemma span_word_suffix r ws :
  all_neutral ws = true -> fst (span_word (r +:+ ws)) = fst (span_word r).
Proof.
  intros H. induction r as [|c r IH].
  - destruct ws as [|d ws]; [reflexivity|].
    simpl in H. apply andb_true_iff in H as [Hd _].
    change (fst (span_word (String d ws)) = ""). cbn [span_word].
    now rewrite (proj2 (neutral_head d Hd)).
  - change (fst (span_word (String c (r +:+ ws))) = fst (span_word (String c r))).
    cbn [span_word]. destruct (is_word c); [|reflexivity].
    destruct (span_word (r +:+ ws)), (span_word r). simpl in *. now rewrite IH.
Qed.

Lemma named_tokens_suffix s ws :
  all_neutral ws = true -> named_tokens (s +:+ ws) = named_tokens s.
Proof.
  intros H. induction s as [|c r IH].
  - change (named_tokens ws = named_tokens "").
    rewrite <- (named_tokens_prefix ws "" H). now rewrite append_empty_r.
  - change (named_tokens (String c (r +:+ ws)) = named_tokens (String c r)).
    cbn [named_tokens].
    rewrite starts_word_suffix, span_word_suffix, IH by assumption. reflexivity.
Qed.

Lemma count_marker_neutral ws :
  all_neutral ws = true -> count_byte pqPrefix ws = 0.
Proof.
  induction ws as [|c ws IH]; intros H; [reflexivity|].
  simpl in H. apply andb_true_iff in H as [Hc Hws].
  cbn [count_byte]. destruct (neutral_head c Hc) as [Hm _].
  unfold is_marker in Hm. rewrite Ascii.eqb_sym in Hm. rewrite Hm. simpl. auto.
Qed.

Lemma named_tokens_TrimSpace q : named_tokens (TrimSpace q) = named_tokens q.
Proof.
  destruct (TrimSpace_split q) as (ws1 & ws2 & Hq & H1 & H2).
  rewrite Hq at 2. rewrite named_tokens_prefix, named_tokens_suffix by assumption.
  reflexivity.
Qed.

Lemma count_marker_TrimSpace q :
  count_byte pqPrefix (TrimSpace q) = count_byte pqPrefix q.
Proof.
  destruct (TrimSpace_split q) as (ws1 & ws2 & Hq & H1 & H2).
  rewrite Hq at 2.
  rewrite !count_byte_app, (count_marker_neutral ws1 H1), (count_marker_neutral ws2 H2).
  lia.
Qed.

Lemma bare_markers_TrimSpace q : bare_markers (TrimSpace q) = bare_markers q.
Proof.
  pose proof (count_tokens_bare q) as A.
  pose proof (count_tokens_bare (TrimSpace q)) as B.
  rewrite count_marker_TrimSpace, named_tokens_TrimSpace in B. lia.
Qed.

(** The names [convertQuery] returns are the tokens of the text. *)
Lemma convertQuery_names q : snd (convertQuery q) = named_tokens q.
Proof.
  unfold convertQuery, FindAllString, pieces. cbn [snd].
  rewrite names_fuel by lia. apply named_tokens_TrimSpace.
Qed.

(** C4, as stated, fails on a query with white space around it: the text
    holds no token, and yet it is not returned unchanged. *)
Lemma convertQuery_unchanged_cex :
  named_tokens " select 1" = [] /\ convertQuery " select 1" <> (" select 1", []).
Proof. split; [reflexivity|]. vm_compute. discriminate. Qed.

(** C4 (amended): for a query text without named-parameter tokens,
    [convertQuery] returns the text with its leading and trailing white space
    removed, and otherwise unchanged, together with an empty name list; the
    function has no error result. *)
Theorem convertQuery_no_tokens q :
  named_tokens q = [] ->
  convertQuery q = (TrimSpace q, []) /\
  (TrimSpace q = q -> convertQuery q = (q, [])).
Proof.
  intros Hnone.
  assert (E : convertQuery q = (TrimSpace q, [])).
  { rewrite (surjective_pairing (convertQuery q)), convertQuery_names, Hnone.
    f_equal. unfold convertQuery, ReplaceAllString, pieces. cbn [fst].
    apply replace_id_fuel; [lia|]. now rewrite named_tokens_TrimSpace. }
  split; [exact E|]. intros Ht. now rewrite E, Ht.
Qed.

Lemma convertQuery_no_tokens_witness :
  named_tokens "  select * from sample " = []
  /\ convertQuery "  select * from sample " = ("select * from sample", []).
Proof.
  split; [reflexivity|].
  exact (proj1 (convertQuery_no_tokens "  select * from sample " eq_refl)).
Defined.

(** C5, as stated, fails on a query with a marker that introduces no name:
    one token, one name, two [?] in the rewritten text. *)
Lemma convertQuery_placeholders_cex :
  List.length (named_tokens "select ?, ?a") = 1 /\
  snd (convertQuery "select ?, ?a") = ["a"] /\
  count_byte "?" (fst (convertQuery "select ?, ?a")) = 2.
Proof. vm_compute. repeat split. Qed.

(** C5 (amended): for a query text with [n] named-parameter tokens
    (duplicates counted), [convertQuery] returns the [n] names in order of
    appearance, duplicates preserved, and the rewritten text contains
    [n + b] characters [?], where [b] counts the markers of the text that
    are not followed by an identifier character; exactly [n] when there is
    no such marker. *)
Theorem convertQuery_names_and_placeholders q :
  let n := List.length (named_tokens q) in
  snd (convertQuery q) = named_tokens q /\
  List.length (snd (convertQuery q)) = n /\
  count_byte "?" (fst (convertQuery q)) = n + bare_markers q /\
  (bare_markers q = 0 -> count_byte "?" (fst (convertQuery q)) = n).
Proof.
  intros n. subst n.
  assert (C : count_byte "?" (fst (convertQuery q))
              = List.length (named_tokens q) + bare_markers q).
  { unfold convertQuery, ReplaceAllString, pieces. cbn [fst].
    change "?"%char with pqPrefix.
    rewrite replace_count_fuel by lia.
    rewrite count_marker_TrimSpace. apply count_tokens_bare. }
  repeat split.
  - apply convertQuery_names.
  - now rewrite convertQuery_names.
  - exact C.
  - intros Hb. rewrite C, Hb. lia.
Qed.

Lemma convertQuery_names_and_placeholders_witness :
  bare_markers "update sample set name = ?name where id = ?id or name = ?name" = 0
  /\ count_byte "?"
       (fst (convertQuery "update sample set name = ?name where id = ?id or name = ?name"))
     = 3.
Proof.
  split; [reflexivity|].
  exact (proj2 (proj2 (proj2 (convertQuery_names_and_placeholders
    "update sample set name = ?name where id = ?id or name = ?name"))) eq_refl).
Defined.

End TranslatorFacts.

(** ** The binder *)

Section BinderFacts.

Variable params : gmap string Value.

(** The loop only ever appends to what it was handed. *)
Lemma reorder_loop_present : forall (names : list string) (acc : list Value),
  (forall name, name ∈ names -> is_Some (params !! name)) ->
  exists vals,
    reorder_loop params names acc = Ok (acc ++ vals)
    /\ List.length vals = List.length names
    /\ forall (i : nat) name, names !! i = Some name -> vals !! i = params !! name.
Proof.
  induction names as [|n names IH]; intros acc Hall.
  - exists []. rewrite app_nil_r. repeat split. intros i name H. discriminate.
  - destruct (Hall n ltac:(left)) as [v Hv].
    destruct (IH (acc ++ [v])) as (vals & Hrun & Hlen & Hidx).
    { intros name Hin. apply Hall. now right. }
    exists (v :: vals). cbn [reorder_loop]. rewrite Hv, Hrun, <- app_assoc.
    repeat split; [simpl; lia|].
    intros [|i] name H; simpl in *.
    + injection H as <-. now rewrite Hv.
    + now apply Hidx.
Qed.

Lemma reorder_loop_absent : forall (names : list string) (acc : list Value),
  (exists name, name ∈ names /\ params !! name = None) ->
  exists pre x post,
    names = pre ++ x :: post
    /\ (forall name, name ∈ pre -> is_Some (params !! name))
    /\ params !! x = None
    /\ reorder_loop params names acc = Err (missing_parameter x).
Proof.
  induction names as [|n names IH]; intros acc (bad & Hin & Hbad).
  - inversion Hin.
  - destruct (params !! n) as [v|] eqn:Hn.
    + destruct (IH (acc ++ [v])) as (pre & x & post & -> & Hpre & Hx & Hrun).
      { exists bad. split; [|exact Hbad].
        apply elem_of_cons in Hin as [->|Hin]; [congruence|exact Hin]. }
      exists (n :: pre), x, post. repeat split; try assumption.
      * intros name H. apply elem_of_cons in H as [->|H]; [now rewrite Hn|auto].
      * cbn [reorder_loop app]. now rewrite Hn.
    + exists [], n, names. repeat split; try assumption.
      * intros name H. inversion H.
      * cbn [reorder_loop]. now rewrite Hn.
Qed.

(** C6: when the mapping holds every name of the list, the binder succeeds;
    its output is as long as the list and its entry at index [i] is
    [mapping[list[i]]], so two positions that carry the same name get the
    same mapping entry. *)
Theorem reorderParameters_bound (names : list string) :
  (forall name, name ∈ names -> is_Some (params !! name)) ->
  exists vals,
    reorderParameters params names = Ok vals
    /\ List.length vals = List.length names
    /\ (forall (i : nat) name, names !! i = Some name -> vals !! i = params !! name)
    /\ (forall (i j : nat) name,
           names !! i = Some name -> names !! j = Some name ->
           vals !! i = vals !! j /\ vals !! i = params !! name).
Proof.
  intros Hall.
  destruct (reorder_loop_present names [] Hall) as (vals & Hrun & Hlen & Hidx).
  exists vals. repeat split; try assumption.
  - rewrite (Hidx i name), (Hidx j name); auto.
  - auto.
Qed.

Lemma reorder_loop_first_absent :
  forall (pre : list string) (x : string) (post : list string) (acc : list Value),
    (forall name, name ∈ pre -> is_Some (params !! name)) ->
    params !! x = None ->
    reorder_loop params (pre ++ x :: post) acc = Err (missing_parameter x).
Proof.
  induction pre as [|n pre IH]; intros x post acc Hpre Hx.
  - cbn [app reorder_loop]. now rewrite Hx.
  - destruct (Hpre n ltac:(left)) as [v Hv].
    cbn [app reorder_loop]. rewrite Hv. apply IH; [|exact Hx].
    intros name Hin. apply Hpre. now right.
Qed.

(** C7: when a name of the list is absent from the mapping and every name
    before it is present, the binder fails with the missing-parameter error
    that names it, whatever follows it, and yields no value list; and
    whenever some name of the list is absent there is such a leftmost one. *)
Theorem reorderParameters_missing (names : list string) :
  (forall pre x post,
      names = pre ++ x :: post ->
      (forall name, name ∈ pre -> is_Some (params !! name)) ->
      params !! x = None ->
      reorderParameters params names
      = Err ("mysql-adapter: parameter '" +:+ x +:+ "' is missing"))
  /\ ((exists name, name ∈ names /\ params !! name = None) ->
      exists pre x post,
        names = pre ++ x :: post
        /\ (forall name, name ∈ pre -> is_Some (params !! name))
        /\ params !! x = None).
Proof.
  split.
  - intros pre x post -> Hpre Hx. now apply reorder_loop_first_absent.
  - intros H. destruct (reorder_loop_absent names [] H)
      as (pre & x & post & Hsplit & Hpre & Hx & _).
    exists pre, x, post. repeat split; assumption.
Qed.

End BinderFacts.

(** ** Statement classification *)

Lemma length_append (a b : string) :
  String.length (a +:+ b) = String.length a + String.length b.
Proof.
  induction a as [|c a IH]; [reflexivity|].
  change (S (String.length (a +:+ b)) = S (String.length a) + String.length b).
  now rewrite IH.
Qed.

Lemma ToLower_length s : String.length (ToLower s) = String.length s.
Proof. induction s as [|c s IH]; simpl; [reflexivity|]. now rewrite IH. Qed.

Lemma take_bytes_prefix head rest :
  take_bytes (String.length head) (head +:+ rest) = head.
Proof.
  induction head as [|c head IH]; [now destruct rest|].
  change (String c (take_bytes (String.length head) (head +:+ rest)) = String c head).
  now rewrite IH.
Qed.

Lemma slice_to_prefix head rest :
  slice_to (String.length head) (head +:+ rest) = Some head.
Proof.
  unfold slice_to. rewrite length_append, take_bytes_prefix.
  destruct (Nat.leb_spec (String.length head) (String.length head + String.length rest));
    [reflexivity|lia].
Qed.

Lemma slice_to_short n s : String.length s < n -> slice_to n s = None.
Proof.
  intros H. unfold slice_to.
  destruct (Nat.leb_spec n (String.length s)); [lia|reflexivity].
Qed.

Lemma replace_length_fuel n : forall s,
  String.length s <= n ->
  String.length (concat_text (map (piece_text "?") (pieces_fuel n s)))
  <= String.length s.
Proof.
  induction n as [|n IH]; intros [|c r] Hlen; simpl in Hlen; try lia;
    try (simpl; lia).
  cbn [pieces_fuel].
  destruct (match_here (String c r)) as [[m rest]|] eqn:Hm.
  - apply match_here_some in Hm as (r' & [= -> ->] & Hw & -> & ->).
    cbn [map piece_text concat_text]. rewrite length_append.
    pose proof (span_word_length r') as Hs.
    specialize (IH (snd (span_word r')) ltac:(lia)).
    cbn [String.length]. lia.
  - cbn [map piece_text concat_text]. rewrite length_append.
    specialize (IH r ltac:(lia)). cbn [String.length]. lia.
Qed.

(** Translation never lengthens the trimmed text. *)
Lemma convertQuery_length q :
  String.length (fst (convertQuery q)) <= String.length (TrimSpace q).
Proof.
  unfold convertQuery, ReplaceAllString, pieces. cbn [fst].
  apply replace_length_fuel. lia.
Qed.

Section AdapterFacts.

Context {W : Type} (db : SQL W).

(** C9: when the translated query begins with [select], in any mix of
    cases, [QueryBulk] fails with the operation-not-permitted error whatever
    the parameter mappings, and makes no call to the backend at all. *)
Theorem QueryBulk_rejects_select (ctx : Context) (q : string)
        (params : list (gmap string Value)) (st : State W) :
  begins_with_select (fst (convertQuery q)) ->
  QueryBulk db ctx q params st
  = (Ret (Err "mysql-adapter: select queries are not allowed. use Query() instead"), st)
  /\ count_ev is_execution (trace (snd (QueryBulk db ctx q params st)))
     = count_ev is_execution (trace st).
Proof.
  intros (head & rest & Hcq & Hlow).
  assert (E : QueryBulk db ctx q params st = (Ret (Err select_not_allowed), st)).
  { unfold QueryBulk. destruct (convertQuery q) as [cq ph]. cbn [fst] in Hcq.
    assert (Hlen : String.length head = 6).
    { rewrite <- ToLower_length, Hlow. reflexivity. }
    rewrite Hcq, <- Hlen, slice_to_prefix, Hlow. reflexivity. }
  rewrite E. split; reflexivity.
Qed.

(** C3: the classification step is not total.  [QueryBulk] panics, before
    any call to the backend, on every query whose trimmed form has fewer than
    six bytes; [Query] panics on every query whose trimmed form is empty once
    the backend has prepared the empty statement. *)
Theorem classification_panics (ctx : Context) (q : string) (st : State W) :
  (String.length (TrimSpace q) < 6 ->
   forall params, QueryBulk db ctx q params st = (Panic "slice bounds out of range", st))
  /\ (TrimSpace q = "" ->
      forall params stmt st1,
        prepareStatement db ctx "" st = (Ret (Ok stmt), st1) ->
        fst (Query db ctx q params st) = Panic "slice bounds out of range").
Proof.
  split.
  - intros Hshort params. unfold QueryBulk.
    pose proof (convertQuery_length q) as Hlen.
    destruct (convertQuery q) as [cq ph]. cbn [fst] in Hlen.
    rewrite slice_to_short by lia. reflexivity.
  - intros Hempty params stmt st1 Hprep. unfold Query.
    assert (E : convertQuery q = ("", [])).
    { unfold convertQuery. rewrite Hempty. reflexivity. }
    rewrite E. cbn [reorderParameters reorder_loop]. unfold bind at 1.
    rewrite Hprep. reflexivity.
Qed.

(** *** Transactions *)

Lemma tx_calls_snoc t e :
  is_tx_call e = true -> tx_calls (t ++ [e]) = tx_calls t ++ [e].
Proof.
  intros He. unfold tx_calls. rewrite List.filter_app. simpl. now rewrite He.
Qed.

Lemma count_ev_tx_calls p t :
  (forall e, p e = true -> is_tx_call e = true) ->
  count_ev p (tx_calls t) = count_ev p t.
Proof.
  intros Hp. unfold count_ev, tx_calls.
  induction t as [|e t IH]; [reflexivity|]. simpl.
  destruct (is_tx_call e) eqn:He; simpl.
  - destruct (p e); simpl; now rewrite IH.
  - destruct (p e) eqn:Hpe; [|exact IH].
    apply Hp in Hpe. congruence.
Qed.

Lemma count_ev_app p t u : count_ev p (t ++ u) = count_ev p t + count_ev p u.
Proof. unfold count_ev. now rewrite List.filter_app, List.length_app. Qed.

(** The resolve step of a frame: one commit or one rollback, whose own
    outcome is dropped. *)
Lemma resolve_step {R} (tx : Tx) (r : R * option error) (st : State W) :
  exists res st',
    (match snd r with
     | Some err => _ <- Rollback db tx ;; ret (Err err)
     | None => _ <- Commit db tx ;; ret (Ok (fst r))
     end) st = (Ret res, st')
    /\ res = match snd r with Some err => Err err | None => Ok (fst r) end
    /\ trace st' = trace st ++ [finalise_call res tx].
Proof.
  destruct r as [v [err|]]; cbn [snd fst];
    unfold bind, Rollback, Commit, call, ret.
  - destruct (tx_Rollback db tx (world st)) as [o w].
    eexists _, _. repeat split.
  - destruct (tx_Commit db tx (world st)) as [o w].
    eexists _, _. repeat split.
Qed.

(** A frame that finds a handle in its context begins nothing and still
    finalises the handle when its function returns. *)
Lemma WrapInTx_participant {R} (ctx : Context) (tx : Tx)
      (fn : Context -> M W (R * option error)) (st : State W) :
  ctx_Value ctx = Some tx ->
  tx_quiet (fn ctx) ->
  exists r st',
    WrapInTx db ctx fn st = (Ret r, st')
    /\ tx_calls (trace st') = tx_calls (trace st) ++ [finalise_call r tx].
Proof.
  intros Hctx Hq. destruct (Hq st) as (r & st1 & Hfn & Hcalls).
  destruct (resolve_step tx r st1) as (res & st2 & Hres & _ & Htr).
  exists res, st2. split.
  - unfold WrapInTx, attachTx. rewrite Hctx. unfold bind at 1. unfold ret at 1.
    rewrite Hctx. unfold bind at 1. rewrite Hfn. exact Hres.
  - rewrite Htr, tx_calls_snoc, Hcalls; [reflexivity|]. now destruct res.
Qed.

(** C10: when the context carries no handle and beginning the transaction
    fails, [WrapInTx] returns that failure; the result is the same for every
    unit-of-work function, which is therefore never run, and the only call
    made to the backend is the failed begin: no commit, no rollback. *)
Theorem WrapInTx_begin_failure {R} (ctx : Context)
        (fn : Context -> M W (R * option error)) (st : State W) (err : error) (w1 : W) :
  ctx_Value ctx = None ->
  pool_Begin db (world st) = (Err err, w1) ->
  WrapInTx db ctx fn st
  = (Ret (Err err), {| world := w1; trace := trace st ++ [EvBegin (Err err)] |})
  /\ count_ev is_finalise (trace (snd (WrapInTx db ctx fn st)))
     = count_ev is_finalise (trace st).
Proof.
  intros Hctx Hbegin.
  assert (E : WrapInTx db ctx fn st
              = (Ret (Err err), {| world := w1; trace := trace st ++ [EvBegin (Err err)] |})).
  { unfold WrapInTx, attachTx, Begin, call, bind, ret. rewrite Hctx, Hbegin. reflexivity. }
  rewrite E. split; [reflexivity|]. cbn [snd trace].
  rewrite count_ev_app. cbn. lia.
Qed.

(** C1 (amended): in [WrapInTx(ctx, f1)] where [ctx] carries no handle, the
    begin succeeds and [f1] calls [WrapInTx] with the context handed to it,
    exactly one transaction is begun, by the outer frame, and each of the two
    frames issues one commit (its function returned no error) or rollback
    (it returned one) against that handle when its function returns: the
    inner frame first, the outer frame last, two finalising calls in all.
    A frame that finds a handle in its context does finalise it. *)
Theorem nested_WrapInTx_calls {A R1 R2} (pre : Context -> M W A)
        (f2 : Context -> M W (R2 * option error))
        (post : A -> Res R2 -> Context -> M W (R1 * option error))
        (ctx : Context) (st : State W) (tx : Tx) (w1 : W) :
  ctx_Value ctx = None ->
  pool_Begin db (world st) = (Ok tx, w1) ->
  (forall c, tx_quiet (pre c)) ->
  (forall c, tx_quiet (f2 c)) ->
  (forall a r c, tx_quiet (post a r c)) ->
  (exists (r1 : Res R1) (r2 : Res R2) (st' : State W),
      WrapInTx db ctx (nested db pre f2 post) st = (Ret r1, st')
      /\ (exists a st2 st3,
             pre (WithValue ctx tx)
                 {| world := w1; trace := trace st ++ [EvBegin (Ok tx)] |}
             = (Ret a, st2)
             /\ WrapInTx db (WithValue ctx tx) f2 st2 = (Ret r2, st3))
      /\ tx_calls (trace st')
         = tx_calls (trace st)
           ++ [EvBegin (Ok tx); finalise_call r2 tx; finalise_call r1 tx]
      /\ count_ev is_begin (trace st') = count_ev is_begin (trace st) + 1
      /\ count_ev is_finalise (trace st') = count_ev is_finalise (trace st) + 2)
  /\ (forall (c : Context) (tx' : Tx) (s : State W),
         ctx_Value c = Some tx' ->
         exists (r2 : Res R2) (s' : State W),
           WrapInTx db c f2 s = (Ret r2, s')
           /\ tx_calls (trace s') = tx_calls (trace s) ++ [finalise_call r2 tx']).
Proof.
  intros Hctx Hbegin Hpre Hf2 Hpost. split.
  2:{ intros c tx' s Hc. apply WrapInTx_participant; auto. }
  set (ctx1 := WithValue ctx tx).
  set (st1 := {| world := w1; trace := trace st ++ [EvBegin (Ok tx)] |}).
  destruct (Hpre ctx1 st1) as (a & st2 & Hrun_pre & Hc2).
  destruct (WrapInTx_participant ctx1 tx f2 st2 eq_refl (Hf2 ctx1))
    as (r2 & st3 & Hrun_in & Hc3).
  destruct (Hpost a r2 ctx1 st3) as (r & st4 & Hrun_post & Hc4).
  destruct (resolve_step tx r st4) as (r1 & st5 & Hres & _ & Htr).
  assert (Hcalls : tx_calls (trace st5)
                   = tx_calls (trace st)
                     ++ [EvBegin (Ok tx); finalise_call r2 tx; finalise_call r1 tx]).
  { rewrite Htr, tx_calls_snoc by now destruct r1.
    rewrite Hc4, Hc3, Hc2. unfold st1. cbn [trace].
    rewrite tx_calls_snoc by reflexivity.
    rewrite <- !app_assoc. reflexivity. }
  exists r1, r2, st5. split; [|split; [|split; [exact Hcalls|split]]].
  2:{ exists a, st2, st3. split; assumption. }
  - unfold WrapInTx at 1. unfold attachTx, Begin, call. rewrite Hctx.
    unfold bind at 1. unfold bind at 1. rewrite Hbegin.
    unfold ret at 1. fold ctx1 st1. change (ctx_Value ctx1) with (Some tx).
    cbv beta iota. unfold bind at 1.
    unfold nested at 1. unfold bind at 1. rewrite Hrun_pre.
    unfold bind at 1. rewrite Hrun_in. rewrite Hrun_post. exact Hres.
  - rewrite <- (count_ev_tx_calls is_begin (trace st5)),
            <- (count_ev_tx_calls is_begin (trace st)), Hcalls, count_ev_app
      by (intros [[]| | | | | |]; simpl; congruence).
    destruct r1, r2; reflexivity.
  - rewrite <- (count_ev_tx_calls is_finalise (trace st5)),
            <- (count_ev_tx_calls is_finalise (trace st)), Hcalls, count_ev_app
      by (intros []; simpl; congruence).
    destruct r1, r2; reflexivity.
Qed.

(** *** Batches *)

Lemma wrap64_add_l a b : wrap64 (wrap64 a + b) = wrap64 (a + b).
Proof.
  unfold wrap64.
  replace ((a + 2 ^ 63) mod 2 ^ 64 - 2 ^ 63 + b + 2 ^ 63)%Z
    with ((a + 2 ^ 63) mod 2 ^ 64 + b)%Z by lia.
  rewrite Zplus_mod_idemp_l. do 2 f_equal. lia.
Qed.

Lemma wrap64_exact z : (int64_min <= z <= int64_max)%Z -> wrap64 z = z.
Proof.
  unfold wrap64, int64_min, int64_max. intros H.
  rewrite Z.mod_small; lia.
Qed.

Lemma wrap64_idem z : wrap64 (wrap64 z) = wrap64 z.
Proof.
  replace (wrap64 z) with (wrap64 z + 0)%Z at 1 by lia.
  rewrite wrap64_add_l. f_equal. lia.
Qed.

(** The loop, started with accumulators [lastID] and [affRows], against the
    receipts of the batch. *)
Lemma bulk_loop_receipts (stmt : Stmt) (ph : list string) :
  forall (params : list (gmap string Value)) (lastID affRows : Z)
         (w : W) (t : list Event) (rs : list SqlResult) (w2 : W),
    receipts db stmt ph params w = Some (rs, w2) ->
    wrap64 affRows = affRows ->
    fst (bulk_loop db stmt ph params lastID affRows {| world := w; trace := t |})
    = Ret (Ok (formatResultSet
                 (match last rs with
                  | Some r => fst (LastInsertId r)
                  | None => lastID
                  end)
                 (wrap64 (affRows + total_affected rs))))
    /\ List.length rs = List.length params.
Proof.
  induction params as [|pms rest IH]; intros lastID affRows w t rs w2 Hrs Hwrapped.
  - injection Hrs as <- <-. cbn. rewrite Z.add_0_r, Hwrapped. split; reflexivity.
  - cbn [receipts] in Hrs. cbn [bulk_loop].
    destruct (reorderParameters pms ph) as [args|]; [|discriminate].
    unfold bind at 1. unfold Exec, call. cbn [world trace].
    destruct (stmt_Exec db stmt args w) as [[r|] w'] eqn:Hexec; [|discriminate].
    destruct (receipts db stmt ph rest w') as [[rs' w'']|] eqn:Hrest; [|discriminate].
    injection Hrs as <- <-.
    destruct (IH (fst (LastInsertId r)) (add64 affRows (fst (RowsAffected r)))
                 w' (t ++ [EvExec stmt args (Ok r)]) rs' w'' Hrest)
      as [Hrun Hlen]; [apply wrap64_idem|].
    rewrite Hrun. split; [|simpl; lia].
    rewrite last_cons. unfold add64. rewrite wrap64_add_l.
    cbn [total_affected fold_right].
    replace (affRows + fst (RowsAffected r) + total_affected rs')%Z
      with (affRows + (fst (RowsAffected r) + total_affected rs'))%Z by lia.
    now destruct (last rs').
Qed.

(** C8 (amended): for a statement that is not rejected as a read and that
    the backend prepares, when every one of the [k] mappings binds and
    executes, [QueryBulk] returns the single synthetic row whose
    last-insert-id is the identifier of the [k]-th execution and whose
    affected-rows is the sum of the [k] affected-row counts taken in signed
    64-bit arithmetic, which is the exact sum whenever that fits in an
    [int64]; for [k = 0] the row carries 0 and 0, and the call succeeds. *)
Theorem QueryBulk_summary (ctx : Context) (q : string)
        (params : list (gmap string Value)) (st st1 : State W)
        (head : string) (stmt : Stmt) (rs : list SqlResult) (w2 : W) :
  slice_to 6 (fst (convertQuery q)) = Some head ->
  ToLower head <> "select" ->
  prepareStatement db ctx (fst (convertQuery q)) st = (Ret (Ok stmt), st1) ->
  receipts db stmt (snd (convertQuery q)) params (world st1) = Some (rs, w2) ->
  fst (QueryBulk db ctx q params st)
  = Ret (Ok [ <["last_insert_id" := VInt64 (final_insert_id rs)]>
                (<["affected_rows" := VInt64 (wrap64 (total_affected rs))]> ∅) ])
  /\ List.length rs = List.length params
  /\ ((int64_min <= total_affected rs <= int64_max)%Z ->
      wrap64 (total_affected rs) = total_affected rs)
  /\ (params = [] -> final_insert_id rs = 0%Z /\ wrap64 (total_affected rs) = 0%Z).
Proof.
  intros Hslice Hnot Hprep Hrs.
  destruct st1 as [w1 t1]. cbn [world] in Hrs.
  destruct (bulk_loop_receipts stmt (snd (convertQuery q)) params 0 0 w1 t1 rs w2 Hrs
              eq_refl) as [Hrun Hlen].
  split; [|split; [exact Hlen|split]].
  - unfold QueryBulk. destruct (convertQuery q) as [cq ph]. cbn [fst snd] in *.
    rewrite Hslice. apply String.eqb_neq in Hnot. rewrite Hnot.
    unfold bind at 1. rewrite Hprep. unfold defer.
    destruct (bulk_loop db stmt ph params 0 0 {| world := w1; trace := t1 |})
      as [o st'] eqn:Hloop.
    cbn [fst] in *. rewrite Hrun. unfold final_insert_id, formatResultSet.
    rewrite Z.add_0_l. now destruct (last rs).
  - apply wrap64_exact.
  - intros ->. injection Hrs as <- _. split; reflexivity.
Qed.

(** *** Which call [Query] makes *)

(** The branch [Query] takes is decided by the first byte of the translated
    text alone: a read when it is [s] or [S], a mutation otherwise. *)
Lemma Query_branch (ctx : Context) (q : string) (params : gmap string Value)
      (st st1 : State W) (c : ascii) (rest : string) (ph : list string)
      (args : list Value) (stmt : Stmt) :
  convertQuery q = (String c rest, ph) ->
  reorderParameters params ph = Ok args ->
  prepareStatement db ctx (String c rest) st = (Ret (Ok stmt), st1) ->
  trace (snd (Query db ctx q params st))
  = trace st1
    ++ [ if Ascii.eqb (lower_byte c) "s"
         then EvQuery stmt args (fst (stmt_Query db stmt args (world st1)))
         else EvExec stmt args (fst (stmt_Exec db stmt args (world st1)));
         EvClose stmt ].
Proof.
  intros Hcq Hre Hprep. unfold Query. rewrite Hcq, Hre.
  unfold bind at 1. rewrite Hprep. unfold defer.
  change (slice_to 1 (String c rest)) with (Some (String c "")).
  cbn [ToLower]. change (String.eqb (String (lower_byte c) "") "s")
    with (Ascii.eqb (lower_byte c) "s" && true)%bool.
  rewrite andb_true_r.
  destruct (Ascii.eqb (lower_byte c) "s").
  - unfold bind, RunQuery, Close, call.
    destruct (stmt_Query db stmt args (world st1)) as [[rows|err] w'];
      cbn [fst snd world trace ret];
      destruct (stmt_Close db stmt w') as [o w'']; cbn [snd trace];
      now rewrite <- app_assoc.
  - unfold bind, Exec, Close, call.
    destruct (stmt_Exec db stmt args (world st1)) as [[r|err] w'];
      cbn [fst snd world trace ret];
      destruct (stmt_Close db stmt w') as [o w'']; cbn [snd trace];
      now rewrite <- app_assoc.
Qed.

End AdapterFacts.

(** ** The adapter on the small backend *)

Section Runs.

Import Mock.

Lemma Query_insert_run (c : Context) (st : State World) :
  Query sql c insert_sample sample_params st
  = (Ret (Ok (formatResultSet (next_id (world st) + 1) 1)),
     {| world := {| begin_error := begin_error (world st);
                    next_handle := S (next_handle (world st));
                    next_id := (next_id (world st) + 1)%Z;
                    finished := finished (world st) |};
        trace := ((trace st
                   ++ [EvPrepare (ctx_Value c)
                         "insert into sample(name, password) values (?, ?)"
                         (Ok (next_handle (world st)))])
                   ++ [EvExec (next_handle (world st)) [VString "a"; VString "b"]
                         (Ok {| LastInsertId := ((next_id (world st) + 1)%Z, None);
                                RowsAffected := (1%Z, None) |})])
                   ++ [EvClose (next_handle (world st))] |}).
Proof.
  destruct c as [[tx|]]; destruct st as [w t]; vm_compute; exact eq_refl.
Qed.

Lemma Query_insert_quiet (c : Context) :
  tx_quiet (Query sql c insert_sample sample_params).
Proof.
  intros st. eexists _, _. split; [apply Query_insert_run|].
  cbn [trace]. unfold tx_calls. rewrite !List.filter_app. cbn [List.filter is_tx_call].
  rewrite !app_nil_r. reflexivity.
Qed.

Lemma inner_insert_quiet (c : Context) : tx_quiet (inner_insert c).
Proof.
  intros st. destruct (Query_insert_quiet c st) as (r & st' & Hrun & Hcalls).
  unfold inner_insert, bind. rewrite Hrun.
  destruct r; eexists _, _; (split; [reflexivity|exact Hcalls]).
Qed.

(** C1, as stated, fails: in this nested pair one transaction is begun and
    two commits are issued against it, the first of them by the inner frame,
    which found the handle in its context. *)
Lemma nested_WrapInTx_single_finalise_cex :
  let st' := snd (WrapInTx sql Background outer_insert start) in
  count_ev is_begin (trace st') = 1
  /\ count_ev is_finalise (trace st') = 2
  /\ tx_calls (trace st') = [EvBegin (Ok 0); EvCommit 0; EvCommit 0]
  /\ tx_calls (trace (snd (WrapInTx sql (WithValue Background 0) inner_insert start)))
     = [EvCommit 0].
Proof. split; [|split; [|split]]; vm_compute; exact eq_refl. Qed.

Lemma nested_WrapInTx_calls_witness :
  exists (r1 r2 : Res ResultSet) st',
    WrapInTx sql Background
      (nested sql (fun _ => ret tt) inner_insert (fun _ _ c => inner_insert c)) start
    = (Ret r1, st')
    /\ tx_calls (trace st')
       = tx_calls (trace start)
         ++ [EvBegin (Ok 0); finalise_call r2 0; finalise_call r1 0]
    /\ count_ev is_finalise (trace st') = count_ev is_finalise (trace start) + 2.
Proof.
  destruct (proj1 (nested_WrapInTx_calls sql
              (fun _ => ret tt) inner_insert (fun _ _ c => inner_insert c)
              Background start 0 (bump (world start)) eq_refl eq_refl
              (fun c st => ex_intro _ tt (ex_intro _ st (conj eq_refl eq_refl)))
              inner_insert_quiet
              (fun _ _ c => inner_insert_quiet c)))
    as (r1 & r2 & st' & Hrun & _ & Hcalls & _ & Hfin).
  exists r1, r2, st'. repeat split; assumption.
Defined.

Lemma WrapInTx_begin_failure_witness :
  pool_Begin sql (world unreachable) = (Err "driver: bad connection", world unreachable)
  /\ WrapInTx sql Background outer_insert unreachable
     = (Ret (Err "driver: bad connection"),
        {| world := world unreachable;
           trace := [EvBegin (Err "driver: bad connection")] |}).
Proof.
  split; [reflexivity|].
  exact (proj1 (WrapInTx_begin_failure sql Background outer_insert unreachable
                  "driver: bad connection" (world unreachable) eq_refl eq_refl)).
Defined.

Lemma QueryBulk_rejects_select_witness :
  fst (convertQuery "  SeLeCt * from sample where id = ?id ")
  = "SeLeCt * from sample where id = ?"
  /\ QueryBulk sql Background "  SeLeCt * from sample where id = ?id " [sample_params] start
     = (Ret (Err "mysql-adapter: select queries are not allowed. use Query() instead"),
        start).
Proof.
  split; [vm_compute; reflexivity|].
  refine (proj1 (QueryBulk_rejects_select sql Background
                   "  SeLeCt * from sample where id = ?id " [sample_params] start _)).
  exists "SeLeCt", " * from sample where id = ?". split; vm_compute; reflexivity.
Defined.

Lemma classification_panics_witness :
  TrimSpace " do 1 " = "do 1"
  /\ QueryBulk sql Background " do 1 " [] start = (Panic "slice bounds out of range", start)
  /\ fst (Query sql Background "  " ∅ start) = Panic "slice bounds out of range".
Proof.
  split; [reflexivity|]. split.
  - refine (proj1 (classification_panics sql Background " do 1 " start) _ []).
    vm_compute. lia.
  - exact (proj2 (classification_panics sql Background "  " start) eq_refl
             ∅ 0 _ eq_refl).
Defined.

(** C2: [Query] does not classify by the first token.  A statement whose
    first token is [set], not [select], is run through the row-returning
    read call, never through the mutation call, and comes back as an empty
    sequence of rows instead of the synthetic row. *)
Theorem Query_set_runs_as_read :
  Query sql Background "set names utf8" ∅ start
  = (Ret (Ok []),
     {| world := bump (world start);
        trace := [EvPrepare None "set names utf8" (Ok 0);
                  EvQuery 0 [] (Ok {| Columns := ["id"; "name"; "password"]; scans := [] |});
                  EvClose 0] |})
  /\ count_ev (fun e => match e with EvExec _ _ _ => true | _ => false end)
       (trace (snd (Query sql Background "set names utf8" ∅ start))) = 0.
Proof. split; vm_compute; exact eq_refl. Qed.

(** C8, as stated, fails when the exact sum leaves the [int64] range: two
    executions that report [2^62] affected rows each yield an affected-rows
    field of [-2^63]. *)
Lemma QueryBulk_sum_cex :
  let q := "update sample set seen = 1 limit ?n" in
  let pms : gmap string Value := <["n" := VInt64 (2 ^ 62)]> ∅ in
  let receipt id := {| LastInsertId := (id, None); RowsAffected := ((2 ^ 62)%Z, None) |} in
  option_map fst (receipts sql 0 ["n"] [pms; pms] (bump (world start)))
  = Some [receipt 1%Z; receipt 2%Z]
  /\ total_affected [receipt 1%Z; receipt 2%Z] = (2 ^ 63)%Z
  /\ fst (QueryBulk sql Background q [pms; pms] start)
     = Ret (Ok (formatResultSet 2 (- 2 ^ 63)))
  /\ (- 2 ^ 63)%Z <> total_affected [receipt 1%Z; receipt 2%Z].
Proof.
  split; [|split; [|split]]; vm_compute; try exact eq_refl.
  intros H. discriminate H.
Qed.

Lemma QueryBulk_summary_witness :
  fst (QueryBulk sql Background insert_sample
         [sample_params; sample_params; sample_params] start)
  = Ret (Ok [ <["last_insert_id" := VInt64 3]> (<["affected_rows" := VInt64 3]> ∅) ])
  /\ fst (QueryBulk sql Background insert_sample [] start)
     = Ret (Ok [ <["last_insert_id" := VInt64 0]> (<["affected_rows" := VInt64 0]> ∅) ]).
Proof.
  split.
  - refine (proj1 (QueryBulk_summary sql Background insert_sample
                     [sample_params; sample_params; sample_params] start
                     _ "insert" 0 _ _ eq_refl _ eq_refl eq_refl)).
    vm_compute. discriminate.
  - refine (proj1 (QueryBulk_summary sql Background insert_sample [] start
                     _ "insert" 0 _ _ eq_refl _ eq_refl eq_refl)).
    vm_compute. discriminate.
Defined.

Lemma reorderParameters_bound_witness :
  exists vals,
    reorderParameters sample_params ["name"; "password"; "name"] = Ok vals
    /\ List.length vals = 3
    /\ vals !! 0 = vals !! 2.
Proof.
  destruct (reorderParameters_bound sample_params ["name"; "password"; "name"])
    as (vals & Hrun & Hlen & _ & Hdup).
  - intros name Hin.
    repeat (apply elem_of_cons in Hin as [->|Hin]); try (vm_compute; eauto).
    inversion Hin.
  - exists vals. repeat split; try assumption.
    exact (proj1 (Hdup 0 2 "name" eq_refl eq_refl)).
Defined.

Lemma reorderParameters_missing_witness :
  sample_params !! "id" = None
  /\ reorderParameters sample_params ["name"; "id"; "password"; "token"]
     = Err "mysql-adapter: parameter 'id' is missing".
Proof.
  split; [reflexivity|].
  refine (proj1 (reorderParameters_missing sample_params
                   ["name"; "id"; "password"; "token"])
                ["name"] "id" ["password"; "token"] eq_refl _ eq_refl).
  intros name Hin. apply list_elem_of_singleton in Hin as ->.
  vm_compute. eauto.
Defined.

End Runs.

(** * Further properties of the code *)

(** ** Translation *)

Section TranslatorMore.

Lemma span_word_all_word r : all_word (fst (span_word r)) = true.
Proof.
  induction r as [|c r IH]; [reflexivity|]. cbn [span_word].
  destruct (is_word c) eqn:Hc; [|reflexivity].
  destruct (span_word r) as [w rest]. cbn [fst all_word] in *. now rewrite Hc, IH.
Qed.

(** X1: Every name [convertQuery] returns is a non-empty run of identifier
    characters: it holds neither the marker nor white space. *)
Theorem convertQuery_names_wellformed q :
  Forall (fun name => name <> "" /\ all_word name = true) (snd (convertQuery q)).
Proof.
  rewrite convertQuery_names. generalize q. clear q.
  induction q as [|c r IH]; cbn [named_tokens]; [constructor|].
  destruct (is_marker c && starts_word r) eqn:E; [|exact IH].
  apply andb_true_iff in E as [_ Hw]. constructor; [|exact IH]. split.
  - intros Hempty. apply span_word_empty in Hempty. congruence.
  - apply span_word_all_word.
Qed.

Lemma starts_word_span_rest r : starts_word (snd (span_word r)) = false.
Proof.
  induction r as [|c r IH]; [reflexivity|]. cbn [span_word].
  destruct (is_word c) eqn:Hc.
  - destruct (span_word r) as [w rest]. exact IH.
  - cbn [snd starts_word]. exact Hc.
Qed.

Lemma rewritten_starts_word n : forall s,
  String.length s <= n -> starts_word (rewritten n s) = starts_word s.
Proof.
  unfold rewritten.
  destruct n as [|n]; intros [|c r] Hlen; simpl in Hlen; try lia; try reflexivity.
  cbn [pieces_fuel].
  destruct (match_here (String c r)) as [[m rest]|] eqn:Hm.
  - apply match_here_some in Hm as (r' & [= -> ->] & Hw & -> & ->). reflexivity.
  - reflexivity.
Qed.

Lemma rewritten_no_tokens n : forall s,
  String.length s <= n -> named_tokens (rewritten n s) = [].
Proof.
  induction n as [|n IH]; intros [|c r] Hlen; simpl in Hlen; try lia; try reflexivity.
  unfold rewritten. cbn [pieces_fuel].
  destruct (match_here (String c r)) as [[m rest]|] eqn:Hm.
  - apply match_here_some in Hm as (r' & [= -> ->] & Hw & -> & ->).
    pose proof (span_word_length r') as Hs.
    cbn [map piece_text concat_text]. fold (rewritten n (snd (span_word r'))).
    change (named_tokens (String "?" (rewritten n (snd (span_word r')))) = []).
    cbn [named_tokens].
    rewrite rewritten_starts_word, starts_word_span_rest by lia.
    rewrite andb_false_r. apply IH. lia.
  - apply match_here_none in Hm.
    cbn [map piece_text concat_text]. fold (rewritten n r).
    change (named_tokens (String c (rewritten n r)) = []).
    cbn [named_tokens]. rewrite rewritten_starts_word, Hm by lia. apply IH. lia.
Qed.

(** X2: The rewritten text holds no named-parameter token any more: translating
    it a second time yields no name. *)
Theorem convertQuery_output_has_no_tokens q :
  named_tokens (fst (convertQuery q)) = []
  /\ snd (convertQuery (fst (convertQuery q))) = [].
Proof.
  assert (H : named_tokens (fst (convertQuery q)) = []).
  { unfold convertQuery, ReplaceAllString, pieces. cbn [fst].
    apply (rewritten_no_tokens _ (TrimSpace q)). lia. }
  split; [exact H|]. now rewrite convertQuery_names.
Qed.

Lemma rewritten_length n : forall s,
  String.length s <= n ->
  String.length (rewritten n s) + total_length (named_tokens s) = String.length s.
Proof.
  induction n as [|n IH]; intros [|c r] Hlen; simpl in Hlen; try lia; try reflexivity.
  unfold rewritten. cbn [pieces_fuel].
  destruct (match_here (String c r)) as [[m rest]|] eqn:Hm.
  - apply match_here_some in Hm as (r' & [= -> ->] & Hw & -> & ->).
    pose proof (span_word_length r') as Hs.
    cbn [map piece_text concat_text]. fold (rewritten n (snd (span_word r'))).
    rewrite length_append. cbn [named_tokens].
    unfold is_marker at 1. rewrite Ascii.eqb_refl, Hw. cbn [andb total_length fold_right].
    fold (total_length (named_tokens r')).
    rewrite <- (named_tokens_span r').
    specialize (IH (snd (span_word r')) ltac:(lia)).
    pose proof (f_equal String.length (span_word_app r')) as Happ.
    rewrite length_append in Happ. cbn [String.length]. lia.
  - apply match_here_none in Hm.
    cbn [map piece_text concat_text]. fold (rewritten n r).
    rewrite length_append. cbn [named_tokens]. rewrite Hm.
    specialize (IH r ltac:(lia)). cbn [String.length]. lia.
Qed.

(** X3: Translation shortens the trimmed text by exactly the bytes of the names
    it extracts, and so never lengthens the query. *)
Theorem convertQuery_length_accounting q :
  String.length (fst (convertQuery q)) + total_length (snd (convertQuery q))
  = String.length (TrimSpace q)
  /\ String.length (fst (convertQuery q)) <= String.length q.
Proof.
  assert (E : String.length (fst (convertQuery q)) + total_length (snd (convertQuery q))
              = String.length (TrimSpace q)).
  { rewrite convertQuery_names, <- named_tokens_TrimSpace.
    unfold convertQuery, ReplaceAllString, pieces. cbn [fst].
    apply (rewritten_length _ (TrimSpace q)). lia. }
  split; [exact E|].
  destruct (TrimSpace_split q) as (ws1 & ws2 & Hq & _ & _).
  apply (f_equal String.length) in Hq. rewrite !length_append in Hq. lia.
Qed.

End TranslatorMore.

(** ** Binding *)

Section BinderMore.

Lemma reorder_loop_agree (p1 p2 : gmap string Value) :
  forall (names : list string) (acc : list Value),
    (forall name, name ∈ names -> p1 !! name = p2 !! name) ->
    reorder_loop p1 names acc = reorder_loop p2 names acc.
Proof.
  induction names as [|n names IH]; intros acc H; [reflexivity|].
  cbn [reorder_loop]. rewrite <- (H n ltac:(left)).
  destruct (p1 !! n); [|reflexivity].
  apply IH. intros name Hin. apply H. now right.
Qed.

(** X4: The binder reads the mapping at the listed names only: two mappings
    that agree there give the same result, so a key that the query does not
    name is ignored, present or not. *)
Theorem reorderParameters_reads_listed_names_only
        (p1 p2 : gmap string Value) (names : list string) :
  (forall name, name ∈ names -> p1 !! name = p2 !! name) ->
  reorderParameters p1 names = reorderParameters p2 names.
Proof. intros H. now apply reorder_loop_agree. Qed.

Lemma reorderParameters_ok_iff (params : gmap string Value) (names : list string) :
  (exists vals, reorderParameters params names = Ok vals)
  <-> (forall name, name ∈ names -> is_Some (params !! name)).
Proof.
  split.
  - intros [vals Hok] name Hin.
    destruct (params !! name) as [v|] eqn:Hv; [eauto|].
    destruct (reorder_loop_absent params names [])
      as (pre & x & post & _ & _ & _ & Herr); [eauto|].
    unfold reorderParameters in Hok. congruence.
  - intros Hall.
    destruct (reorder_loop_present params names [] Hall) as (vals & Hrun & _).
    exists vals. exact Hrun.
Qed.

(** X5: Translator and binder together: binding the names of a query succeeds
    exactly when the mapping holds every token name of the text, and then
    yields one value per token, which is one value per [?] of the rewritten
    text when the text has no marker without a name. *)
Theorem bind_translated_query (q : string) (params : gmap string Value) :
  ((exists vals, reorderParameters params (snd (convertQuery q)) = Ok vals)
   <-> (forall name, name ∈ named_tokens q -> is_Some (params !! name)))
  /\ (forall vals,
        reorderParameters params (snd (convertQuery q)) = Ok vals ->
        List.length vals = List.length (named_tokens q)
        /\ (bare_markers q = 0 ->
            List.length vals = count_byte "?" (fst (convertQuery q)))).
Proof.
  split.
  - rewrite convertQuery_names. apply reorderParameters_ok_iff.
  - intros vals Hok.
    assert (Hall : forall name, name ∈ snd (convertQuery q) -> is_Some (params !! name)).
    { apply reorderParameters_ok_iff. eauto. }
    destruct (reorder_loop_present params _ [] Hall) as (vals' & Hrun & Hlen & _).
    unfold reorderParameters in Hok. rewrite Hrun in Hok. injection Hok as <-.
    rewrite convertQuery_names in Hlen. split; [exact Hlen|].
    intros Hbare. rewrite Hlen.
    unfold convertQuery, ReplaceAllString, pieces. cbn [fst].
    change "?"%char with pqPrefix. rewrite replace_count_fuel by lia.
    rewrite count_marker_TrimSpace, count_tokens_bare, Hbare. lia.
Qed.

End BinderMore.

(** ** Result sets *)

Section ResultSetMore.

(** X6: The synthetic result set is one row with exactly the two fields
    [affected_rows] and [last_insert_id], holding the two numbers. *)
Theorem formatResultSet_fields (id aff : Z) :
  exists row : gmap string Value,
    formatResultSet id aff = [row]
    /\ row !! "affected_rows" = Some (VInt64 aff)
    /\ row !! "last_insert_id" = Some (VInt64 id)
    /\ (forall k, k <> "affected_rows" -> k <> "last_insert_id" -> row !! k = None).
Proof.
  eexists. split; [reflexivity|]. split; [|split].
  - rewrite lookup_insert_ne by discriminate. apply lookup_insert_eq.
  - apply lookup_insert_eq.
  - intros k H1 H2. rewrite !lookup_insert_ne by congruence. apply lookup_empty.
Qed.

Lemma fill_row_other (cols : list string) :
  forall (vals : list Value) (row : gmap string Value) (k : string),
    k ∉ cols -> fill_row cols vals row !! k = row !! k.
Proof.
  induction cols as [|c cols IH]; intros vals row k Hk; [reflexivity|].
  cbn [fill_row]. rewrite IH by (intros H; apply Hk; now right).
  apply lookup_insert_ne. intros ->. apply Hk. now left.
Qed.

Lemma fill_row_lookup (cols : list string) :
  forall (vals : list Value) (row : gmap string Value) (j : nat) (col : string),
    NoDup cols -> cols !! j = Some col ->
    fill_row cols vals row !! col = Some (nth j vals VNil).
Proof.
  induction cols as [|c cols IH]; intros vals row j col Hnd Hj; [discriminate|].
  apply NoDup_cons in Hnd as [Hc Hnd]. cbn [fill_row].
  destruct j as [|j]; cbn in Hj.
  - injection Hj as ->. rewrite fill_row_other by exact Hc.
    rewrite lookup_insert_eq. destruct vals; reflexivity.
  - rewrite (IH (tail vals) _ j col Hnd Hj). destruct vals; [destruct j|]; reflexivity.
Qed.

Lemma dataset_loop_ok (cols : list string) :
  forall (rows : list (list Value)) (data : ResultSet),
    dataset_loop cols (map Ok rows) data
    = Ok (data ++ map (fun columns => fill_row cols columns ∅) rows).
Proof.
  induction rows as [|r rows IH]; intros data; cbn [map dataset_loop].
  - now rewrite app_nil_r.
  - rewrite IH, <- app_assoc. reflexivity.
Qed.

Lemma dataset_loop_err (cols : list string) :
  forall (rows : list (list Value)) (err : error) (rest : list (Res (list Value)))
         (data : ResultSet),
    dataset_loop cols (map Ok rows ++ Err err :: rest) data = Err err.
Proof.
  induction rows as [|r rows IH]; intros err rest data; cbn [map app dataset_loop];
    [reflexivity|apply IH].
Qed.

(** X7: When every row scans, [prepareDataSet] returns one row per scanned row,
    in order; with distinct column names, row [i] maps column [j] to the
    [j]-th scanned value of row [i] and holds no other key.  No row at all
    gives the empty sequence. *)
Theorem prepareDataSet_rows (cols : list string) (rows : list (list Value)) :
  NoDup cols ->
  exists data,
    prepareDataSet {| Columns := cols; scans := map Ok rows |} = Ok data
    /\ List.length data = List.length rows
    /\ (rows = [] -> data = [])
    /\ (forall (i : nat) (columns : list Value),
          rows !! i = Some columns ->
          exists row : gmap string Value,
            data !! i = Some row
            /\ (forall (j : nat) col, cols !! j = Some col ->
                                      row !! col = Some (nth j columns VNil))
            /\ (forall k, k ∉ cols -> row !! k = None)).
Proof.
  intros Hnd. eexists. split; [apply dataset_loop_ok|].
  cbn [app]. split; [now rewrite length_map|]. split; [now intros ->|].
  intros i columns Hi. exists (fill_row cols columns ∅). split; [|split].
  - rewrite list_lookup_fmap, Hi. reflexivity.
  - intros j col Hj. now apply fill_row_lookup.
  - intros k Hk. rewrite fill_row_other by exact Hk. apply lookup_empty.
Qed.

(** X8: The first row that fails to scan makes [prepareDataSet] fail with that
    error; the rows scanned before it are dropped and the rows after it are
    not looked at. *)
Theorem prepareDataSet_scan_error (cols : list string) (rows : list (list Value))
        (err : error) (rest : list (Res (list Value))) :
  prepareDataSet {| Columns := cols; scans := map Ok rows ++ Err err :: rest |}
  = Err err.
Proof. apply dataset_loop_err. Qed.

(** X9: A column name that occurs twice keeps the value of its last
    occurrence. *)
Theorem fill_row_duplicate_column (pre post : list string) (col : string)
        (vals : list Value) :
  col ∉ post ->
  fill_row (pre ++ col :: post) vals ∅ !! col
  = Some (nth (List.length pre) vals VNil).
Proof.
  intros Hpost. generalize vals (∅ : gmap string Value). clear vals.
  induction pre as [|c pre IH]; intros vals row; cbn [app fill_row List.length].
  - rewrite fill_row_other by exact Hpost. rewrite lookup_insert_eq. destruct vals; reflexivity.
  - rewrite IH. destruct vals; [destruct (List.length pre)|]; reflexivity.
Qed.

End ResultSetMore.

(** ** Statement execution *)

Section ExecutorMore.

Context {W : Type} (db : SQL W).

Lemma prepareStatement_run (ctx : Context) (query : string) (st : State W) :
  exists r w,
    prepareStatement db ctx query st
    = (Ret r, {| world := w; trace := trace st ++ [EvPrepare (ctx_Value ctx) query r] |}).
Proof.
  unfold prepareStatement, call. destruct (ctx_Value ctx) as [tx|].
  - destruct (tx_Prepare db tx query (world st)) as [r w]. eauto.
  - destruct (pool_Prepare db query (world st)) as [r w]. eauto.
Qed.

Lemma statement_calls_not_tx evs :
  forallb is_statement_call evs = true -> tx_calls evs = [].
Proof.
  unfold tx_calls. induction evs as [|e evs IH]; [reflexivity|].
  cbn [forallb List.filter]. intros H. apply andb_true_iff in H as [He H].
  destruct e; try discriminate He; cbn; auto.
Qed.

Lemma tx_calls_app t u : tx_calls (t ++ u) = tx_calls t ++ tx_calls u.
Proof. unfold tx_calls. apply List.filter_app. Qed.

(** What [Query] does once the statement is prepared, whatever the text. *)
Lemma Query_after_prepare (ctx : Context) (q : string) (params : gmap string Value)
      (st st1 : State W) (args : list Value) (stmt : Stmt) :
  reorderParameters params (snd (convertQuery q)) = Ok args ->
  prepareStatement db ctx (fst (convertQuery q)) st = (Ret (Ok stmt), st1) ->
  exists evs,
    trace (snd (Query db ctx q params st)) = trace st1 ++ evs ++ [EvClose stmt]
    /\ List.length evs <= 1
    /\ forallb is_execution evs = true
    /\ forallb is_statement_call evs = true.
Proof.
  intros Hre Hprep. destruct (convertQuery q) as [cq ph] eqn:Hcq. cbn [fst snd] in *.
  destruct cq as [|c rest].
  - exists []. unfold Query. rewrite Hcq, Hre. unfold bind at 1. rewrite Hprep.
    unfold defer, Close, call. cbn [slice_to String.length Nat.leb panic].
    change (slice_to 1 "") with (@None string). cbn [panic].
    destruct (stmt_Close db stmt (world st1)) as [o w]. cbn [snd trace].
    repeat split; auto.
  - rewrite (Query_branch db ctx q params st st1 c rest ph args stmt Hcq Hre Hprep).
    eexists [_]. split; [reflexivity|].
    destruct (Ascii.eqb (lower_byte c) "s"); repeat split; auto.
Qed.

(** X10: Once [Query] has prepared a statement it closes it on every way out,
    panic included, as the last call it makes; in between it runs the
    statement at most once. *)
Theorem Query_closes_statement (ctx : Context) (q : string)
        (params : gmap string Value) (st st1 : State W)
        (args : list Value) (stmt : Stmt) :
  reorderParameters params (snd (convertQuery q)) = Ok args ->
  prepareStatement db ctx (fst (convertQuery q)) st = (Ret (Ok stmt), st1) ->
  exists evs,
    trace (snd (Query db ctx q params st)) = trace st1 ++ evs ++ [EvClose stmt]
    /\ List.length evs <= 1
    /\ forallb is_execution evs = true.
Proof.
  intros Hre Hprep.
  destruct (Query_after_prepare ctx q params st st1 args stmt Hre Hprep)
    as (evs & Htr & Hlen & Hex & _).
  exists evs. auto.
Qed.

Lemma Query_calls (ctx : Context) (q : string) (params : gmap string Value)
      (st : State W) :
  exists evs,
    trace (snd (Query db ctx q params st)) = trace st ++ evs
    /\ forallb is_statement_call evs = true
    /\ List.length evs <= 3.
Proof.
  destruct (reorderParameters params (snd (convertQuery q))) as [args|err] eqn:Hre.
  - destruct (prepareStatement_run ctx (fst (convertQuery q)) st) as (r & w & Hprep).
    destruct r as [stmt|err].
    + destruct (Query_after_prepare ctx q params st _ args stmt Hre Hprep)
        as (evs & Htr & Hlen & _ & Hst).
      exists (EvPrepare (ctx_Value ctx) (fst (convertQuery q)) (Ok stmt) :: evs ++ [EvClose stmt]).
      rewrite Htr. cbn [trace]. rewrite <- app_assoc. split; [reflexivity|].
      split; [|rewrite length_cons, length_app; simpl; lia].
      cbn [forallb is_statement_call]. rewrite forallb_app, Hst. reflexivity.
    + exists [EvPrepare (ctx_Value ctx) (fst (convertQuery q)) (Err err)].
      unfold Query. destruct (convertQuery q) as [cq ph]. cbn [fst snd] in *.
      rewrite Hre. unfold bind at 1. rewrite Hprep.
      split; [reflexivity|]. split; [reflexivity|]. simpl. lia.
  - exists []. unfold Query. destruct (convertQuery q) as [cq ph]. cbn [snd] in Hre.
    rewrite Hre. cbn [ret snd]. rewrite app_nil_r.
    split; [reflexivity|]. split; [reflexivity|]. simpl. lia.
Qed.

(** X11: [Query] talks to the backend about its statement only: it makes at most
    three calls (prepare, one execution, close), and never begins, commits or
    rolls back a transaction, whatever its input and however it ends. *)
Theorem Query_makes_no_transaction_call (ctx : Context) (q : string)
        (params : gmap string Value) (st : State W) :
  tx_calls (trace (snd (Query db ctx q params st))) = tx_calls (trace st)
  /\ exists evs,
       trace (snd (Query db ctx q params st)) = trace st ++ evs
       /\ forallb is_statement_call evs = true
       /\ List.length evs <= 3.
Proof.
  destruct (Query_calls ctx q params st) as (evs & Htr & Hst & Hlen).
  split; [|eauto].
  rewrite Htr, tx_calls_app, (statement_calls_not_tx evs Hst). apply app_nil_r.
Qed.

(** X12: A missing parameter stops [Query] before it touches the backend: when
    the name [x] of the query is absent from the mapping and the names before
    it are present, the call fails with the error naming [x] and the backend
    and the call trace are as they were. *)
Theorem Query_missing_parameter (ctx : Context) (q : string)
        (params : gmap string Value) (st : State W)
        (pre : list string) (x : string) (post : list string) :
  named_tokens q = pre ++ x :: post ->
  (forall name, name ∈ pre -> is_Some (params !! name)) ->
  params !! x = None ->
  Query db ctx q params st
  = (Ret (Err ("mysql-adapter: parameter '" +:+ x +:+ "' is missing")), st).
Proof.
  intros Hnames Hpre Hx. unfold Query.
  pose proof (convertQuery_names q) as Hn.
  destruct (convertQuery q) as [cq ph]. cbn [snd] in Hn. subst ph.
  unfold reorderParameters. rewrite Hnames.
  rewrite (reorder_loop_first_absent params pre x post [] Hpre Hx). reflexivity.
Qed.

(** X13: When the backend refuses to prepare the statement, [Query] returns that
    error as it is; the prepare is the only call made: nothing is executed
    and nothing is closed. *)
Theorem Query_prepare_failure (ctx : Context) (q : string)
        (params : gmap string Value) (st st1 : State W)
        (args : list Value) (err : error) :
  reorderParameters params (snd (convertQuery q)) = Ok args ->
  prepareStatement db ctx (fst (convertQuery q)) st = (Ret (Err err), st1) ->
  Query db ctx q params st = (Ret (Err err), st1)
  /\ trace st1 = trace st ++ [EvPrepare (ctx_Value ctx) (fst (convertQuery q)) (Err err)].
Proof.
  intros Hre Hprep. split.
  - unfold Query. destruct (convertQuery q) as [cq ph]. cbn [fst snd] in *.
    rewrite Hre. unfold bind at 1. now rewrite Hprep.
  - destruct (prepareStatement_run ctx (fst (convertQuery q)) st) as (r & w & Hrun).
    rewrite Hrun in Hprep. injection Hprep as -> <-. reflexivity.
Qed.

(** X14: The read path: when the translated text begins with [s] or [S],
    [Query] runs the statement through the row-returning call and returns
    the rows it yields as a data set, or its error; a read that finds no row
    returns the empty sequence, not an error. *)
Theorem Query_read_path (ctx : Context) (q : string) (params : gmap string Value)
        (st st1 : State W) (c : ascii) (rest : string) (ph : list string)
        (args : list Value) (stmt : Stmt) :
  convertQuery q = (String c rest, ph) ->
  lower_byte c = "s"%char ->
  reorderParameters params ph = Ok args ->
  prepareStatement db ctx (String c rest) st = (Ret (Ok stmt), st1) ->
  fst (Query db ctx q params st)
  = Ret (match fst (stmt_Query db stmt args (world st1)) with
         | Ok rows => prepareDataSet rows
         | Err err => Err err
         end)
  /\ (forall cols w2,
         stmt_Query db stmt args (world st1) = (Ok {| Columns := cols; scans := [] |}, w2) ->
         fst (Query db ctx q params st) = Ret (Ok [])).
Proof.
  intros Hcq Hs Hre Hprep.
  assert (E : fst (Query db ctx q params st)
              = Ret (match fst (stmt_Query db stmt args (world st1)) with
                     | Ok rows => prepareDataSet rows
                     | Err err => Err err
                     end)).
  { unfold Query. rewrite Hcq, Hre. unfold bind at 1. rewrite Hprep. unfold defer.
    change (slice_to 1 (String c rest)) with (Some (String c "")).
    cbn [ToLower]. rewrite Hs. cbn [String.eqb Ascii.eqb Bool.eqb].
    change (String.eqb "s" "s") with true. cbv iota.
    unfold bind, RunQuery, call.
    destruct (stmt_Query db stmt args (world st1)) as [[rows|err] w']; reflexivity. }
  split; [exact E|]. intros cols w2 Hq. rewrite E, Hq. reflexivity.
Qed.

(** X15: The mutation path: when the translated text begins with any other byte,
    [Query] runs the statement through the mutation call and returns the
    synthetic row built from its receipt; a failed execution, or a receipt
    whose identifier or count carries an error, is returned as that error,
    the identifier's first. *)
Theorem Query_mutation_path (ctx : Context) (q : string) (params : gmap string Value)
        (st st1 : State W) (c : ascii) (rest : string) (ph : list string)
        (args : list Value) (stmt : Stmt) :
  convertQuery q = (String c rest, ph) ->
  lower_byte c <> "s"%char ->
  reorderParameters params ph = Ok args ->
  prepareStatement db ctx (String c rest) st = (Ret (Ok stmt), st1) ->
  fst (Query db ctx q params st)
  = Ret (match fst (stmt_Exec db stmt args (world st1)) with
         | Ok {| LastInsertId := (_, Some err) |} => Err err
         | Ok {| LastInsertId := (_, None); RowsAffected := (_, Some err) |} => Err err
         | Ok {| LastInsertId := (id, None); RowsAffected := (aff, None) |} =>
             Ok [ <["last_insert_id" := VInt64 id]> (<["affected_rows" := VInt64 aff]> ∅) ]
         | Err err => Err err
         end).
Proof.
  intros Hcq Hs Hre Hprep.
  unfold Query. rewrite Hcq, Hre. unfold bind at 1. rewrite Hprep. unfold defer.
  change (slice_to 1 (String c rest)) with (Some (String c "")).
  cbn [ToLower].
  change (String.eqb (String (lower_byte c) "") "s")
    with (Ascii.eqb (lower_byte c) "s" && true)%bool.
  apply Ascii.eqb_neq in Hs. rewrite Hs. cbn [andb].
  unfold bind, Exec, call.
  destruct (stmt_Exec db stmt args (world st1)) as [[[[id [e1|]] [aff [e2|]]]|err] w'];
    reflexivity.
Qed.

End ExecutorMore.

(** ** Batches *)

Section BulkMore.

Context {W : Type} (db : SQL W).

Lemma exec_calls_are_statement_calls stmt evs :
  forallb (is_exec_of stmt) evs = true -> forallb is_statement_call evs = true.
Proof.
  induction evs as [|e evs IH]; [reflexivity|]. cbn [forallb].
  intros H. apply andb_true_iff in H as [He H]. rewrite (IH H).
  destruct e; try discriminate He. reflexivity.
Qed.

(** The loop over a batch whose first mappings all bind and execute: it
    arrives at the rest of the batch having made one execution per mapping. *)
Lemma bulk_loop_prefix (stmt : Stmt) (ph : list string) :
  forall (pre rest : list (gmap string Value)) (lastID affRows : Z)
         (w : W) (t : list Event) (rs : list SqlResult) (w2 : W),
    receipts db stmt ph pre w = Some (rs, w2) ->
    exists evs lastID' affRows',
      bulk_loop db stmt ph (pre ++ rest) lastID affRows {| world := w; trace := t |}
      = bulk_loop db stmt ph rest lastID' affRows' {| world := w2; trace := t ++ evs |}
      /\ List.length evs = List.length pre
      /\ forallb (is_exec_of stmt) evs = true.
Proof.
  induction pre as [|pms pre IH]; intros rest lastID affRows w t rs w2 Hrs.
  - injection Hrs as <- <-. exists [], lastID, affRows. rewrite app_nil_r. auto.
  - cbn [receipts] in Hrs. cbn [app bulk_loop].
    destruct (reorderParameters pms ph) as [args|]; [|discriminate].
    unfold bind at 1. unfold Exec, call. cbn [world trace].
    destruct (stmt_Exec db stmt args w) as [[r|] w'] eqn:Hexec; [|discriminate].
    destruct (receipts db stmt ph pre w') as [[rs' w'']|] eqn:Hrest; [|discriminate].
    injection Hrs as <- <-.
    destruct (IH rest (fst (LastInsertId r)) (add64 affRows (fst (RowsAffected r)))
                 w' (t ++ [EvExec stmt args (Ok r)]) rs' w'' Hrest)
      as (evs & l' & a' & Hrun & Hlen & Hall).
    exists (EvExec stmt args (Ok r) :: evs), l', a'.
    rewrite Hrun, <- app_assoc. split; [reflexivity|]. split; [simpl; lia|].
    cbn [forallb is_exec_of]. now rewrite Nat.eqb_refl, Hall.
Qed.

(** The calls the loop makes, whatever the batch and however it ends. *)
Lemma bulk_loop_calls (stmt : Stmt) (ph : list string) :
  forall (params : list (gmap string Value)) (lastID affRows : Z) (st : State W),
    exists evs,
      trace (snd (bulk_loop db stmt ph params lastID affRows st)) = trace st ++ evs
      /\ forallb (is_exec_of stmt) evs = true
      /\ List.length evs <= List.length params
      /\ (forall rs, fst (bulk_loop db stmt ph params lastID affRows st) = Ret (Ok rs) ->
                     List.length evs = List.length params).
Proof.
  induction params as [|pms rest IH]; intros lastID affRows st.
  - exists []. cbn. rewrite app_nil_r. auto.
  - cbn [bulk_loop]. destruct (reorderParameters pms ph) as [args|err].
    + unfold bind at 1 2. unfold Exec, call.
      destruct (stmt_Exec db stmt args (world st)) as [[r|err] w'].
      * destruct (IH (fst (LastInsertId r)) (add64 affRows (fst (RowsAffected r)))
                     {| world := w'; trace := trace st ++ [EvExec stmt args (Ok r)] |})
          as (evs & Htr & Hall & Hlen & Hok).
        exists (EvExec stmt args (Ok r) :: evs). rewrite Htr. cbn [trace].
        rewrite <- app_assoc. split; [reflexivity|].
        cbn [forallb is_exec_of]. rewrite Nat.eqb_refl, Hall.
        split; [reflexivity|]. split; [simpl; lia|].
        intros rs Hrs. specialize (Hok rs Hrs). simpl. lia.
      * exists [EvExec stmt args (Err err)]. cbn [snd fst trace ret].
        cbn [forallb is_exec_of]. rewrite Nat.eqb_refl.
        split; [reflexivity|]. split; [reflexivity|]. split; [simpl; lia|].
        intros rs Hrs. discriminate Hrs.
    + exists []. cbn [ret snd fst]. rewrite app_nil_r.
      split; [reflexivity|]. split; [reflexivity|]. split; [simpl; lia|].
      intros rs Hrs. discriminate Hrs.
Qed.

(** What [QueryBulk] does with a statement it may run and has prepared. *)
Lemma QueryBulk_after_prepare (ctx : Context) (q : string)
      (params : list (gmap string Value)) (st st1 : State W)
      (head : string) (stmt : Stmt) :
  slice_to 6 (fst (convertQuery q)) = Some head ->
  ToLower head <> "select" ->
  prepareStatement db ctx (fst (convertQuery q)) st = (Ret (Ok stmt), st1) ->
  QueryBulk db ctx q params st
  = defer (Close db stmt) (bulk_loop db stmt (snd (convertQuery q)) params 0 0) st1.
Proof.
  intros Hslice Hnot Hprep. unfold QueryBulk.
  destruct (convertQuery q) as [cq ph]. cbn [fst snd] in *.
  rewrite Hslice. apply String.eqb_neq in Hnot. rewrite Hnot.
  unfold bind at 1. now rewrite Hprep.
Qed.

Lemma defer_Close_run {A} (stmt : Stmt) (body : M W A) (st : State W) :
  defer (Close db stmt) body st
  = (fst (body st),
     {| world := snd (stmt_Close db stmt (world (snd (body st))));
        trace := trace (snd (body st)) ++ [EvClose stmt] |}).
Proof.
  unfold defer, Close, call. destruct (body st) as [o st']. cbn [fst snd].
  destruct (stmt_Close db stmt (world st')) as [e w]. reflexivity.
Qed.

(** X16: [QueryBulk] prepares the statement once, runs it once per mapping in
    order on that one statement, at most as many times as there are
    mappings and exactly as many when the batch succeeds, and closes it as
    its last call however the batch ends. *)
Theorem QueryBulk_calls (ctx : Context) (q : string)
        (params : list (gmap string Value)) (st st1 : State W)
        (head : string) (stmt : Stmt) :
  slice_to 6 (fst (convertQuery q)) = Some head ->
  ToLower head <> "select" ->
  prepareStatement db ctx (fst (convertQuery q)) st = (Ret (Ok stmt), st1) ->
  exists evs,
    trace (snd (QueryBulk db ctx q params st))
    = trace st ++ [EvPrepare (ctx_Value ctx) (fst (convertQuery q)) (Ok stmt)]
               ++ evs ++ [EvClose stmt]
    /\ forallb (is_exec_of stmt) evs = true
    /\ List.length evs <= List.length params
    /\ (forall rs, fst (QueryBulk db ctx q params st) = Ret (Ok rs) ->
                   List.length evs = List.length params).
Proof.
  intros Hslice Hnot Hprep.
  rewrite (QueryBulk_after_prepare ctx q params st st1 head stmt Hslice Hnot Hprep).
  rewrite defer_Close_run. cbn [fst snd trace].
  destruct (bulk_loop_calls stmt (snd (convertQuery q)) params 0 0 st1)
    as (evs & Htr & Hall & Hlen & Hok).
  exists evs. rewrite Htr.
  destruct (prepareStatement_run db ctx (fst (convertQuery q)) st) as (r & w & Hrun).
  rewrite Hrun in Hprep. injection Hprep as -> <-. cbn [trace].
  rewrite <- !app_assoc. auto.
Qed.

(** X17: [QueryBulk] never begins, commits or rolls back a transaction, whatever
    its input and however it ends: a batch that fails half way is not undone
    by it. *)
Theorem QueryBulk_makes_no_transaction_call (ctx : Context) (q : string)
        (params : list (gmap string Value)) (st : State W) :
  tx_calls (trace (snd (QueryBulk db ctx q params st))) = tx_calls (trace st).
Proof.
  unfold QueryBulk. destruct (convertQuery q) as [cq ph].
  destruct (slice_to 6 cq) as [head|]; [|reflexivity].
  destruct (String.eqb (ToLower head) "select"); [reflexivity|].
  unfold bind at 1.
  destruct (prepareStatement_run db ctx cq st) as (r & w & Hrun). rewrite Hrun.
  destruct r as [stmt|err].
  - rewrite defer_Close_run. cbn [snd trace].
    destruct (bulk_loop_calls stmt ph params 0 0
                {| world := w; trace := trace st ++ [EvPrepare (ctx_Value ctx) cq (Ok stmt)] |})
      as (evs & Htr & Hall & _). rewrite Htr. cbn [trace].
    rewrite !tx_calls_app.
    rewrite (statement_calls_not_tx evs (exec_calls_are_statement_calls stmt evs Hall)).
    cbn. now rewrite !app_nil_r.
  - cbn [ret snd trace]. rewrite tx_calls_app. cbn. now rewrite app_nil_r.
Qed.

(** X18: A mapping that misses a parameter stops the batch where it stands:
    [QueryBulk] returns the binder's error, the mappings before it have been
    executed and stay executed (the backend is as they left it, closed
    statement apart), and the mappings after it are never run. *)
Theorem QueryBulk_bind_failure_mid_batch (ctx : Context) (q : string)
        (pre post : list (gmap string Value)) (bad : gmap string Value)
        (st st1 : State W) (head : string) (stmt : Stmt)
        (rs : list SqlResult) (w2 : W) (err : error) :
  slice_to 6 (fst (convertQuery q)) = Some head ->
  ToLower head <> "select" ->
  prepareStatement db ctx (fst (convertQuery q)) st = (Ret (Ok stmt), st1) ->
  receipts db stmt (snd (convertQuery q)) pre (world st1) = Some (rs, w2) ->
  reorderParameters bad (snd (convertQuery q)) = Err err ->
  exists evs,
    QueryBulk db ctx q (pre ++ bad :: post) st
    = (Ret (Err err),
       {| world := snd (stmt_Close db stmt w2);
          trace := trace st1 ++ evs ++ [EvClose stmt] |})
    /\ List.length evs = List.length pre
    /\ forallb (is_exec_of stmt) evs = true.
Proof.
  intros Hslice Hnot Hprep Hrs Hbad.
  rewrite (QueryBulk_after_prepare ctx q _ st st1 head stmt Hslice Hnot Hprep).
  rewrite defer_Close_run. destruct st1 as [w1 t1]. cbn [world] in Hrs.
  destruct (bulk_loop_prefix stmt (snd (convertQuery q)) pre (bad :: post) 0 0 w1 t1 rs w2 Hrs)
    as (evs & l' & a' & Hrun & Hlen & Hall).
  exists evs. rewrite Hrun. cbn [bulk_loop]. rewrite Hbad. cbn [ret fst snd world trace].
  rewrite <- app_assoc. auto.
Qed.

(** X19: An execution that fails stops the batch in the same way: its error is
    returned as it is, the earlier mappings stay executed, the later ones are
    never run, and the statement is closed. *)
Theorem QueryBulk_exec_failure_mid_batch (ctx : Context) (q : string)
        (pre post : list (gmap string Value)) (pms : gmap string Value)
        (st st1 : State W) (head : string) (stmt : Stmt)
        (rs : list SqlResult) (w2 w3 : W) (args : list Value) (err : error) :
  slice_to 6 (fst (convertQuery q)) = Some head ->
  ToLower head <> "select" ->
  prepareStatement db ctx (fst (convertQuery q)) st = (Ret (Ok stmt), st1) ->
  receipts db stmt (snd (convertQuery q)) pre (world st1) = Some (rs, w2) ->
  reorderParameters pms (snd (convertQuery q)) = Ok args ->
  stmt_Exec db stmt args w2 = (Err err, w3) ->
  exists evs,
    QueryBulk db ctx q (pre ++ pms :: post) st
    = (Ret (Err err),
       {| world := snd (stmt_Close db stmt w3);
          trace := trace st1 ++ evs ++ [EvExec stmt args (Err err); EvClose stmt] |})
    /\ List.length evs = List.length pre
    /\ forallb (is_exec_of stmt) evs = true.
Proof.
  intros Hslice Hnot Hprep Hrs Hbind Hexec.
  rewrite (QueryBulk_after_prepare ctx q _ st st1 head stmt Hslice Hnot Hprep).
  rewrite defer_Close_run. destruct st1 as [w1 t1]. cbn [world] in Hrs.
  destruct (bulk_loop_prefix stmt (snd (convertQuery q)) pre (pms :: post) 0 0 w1 t1 rs w2 Hrs)
    as (evs & l' & a' & Hrun & Hlen & Hall).
  exists evs. rewrite Hrun. cbn [bulk_loop]. rewrite Hbind.
  unfold bind, Exec, call. cbn [world trace]. rewrite Hexec.
  cbn [ret fst snd world trace]. rewrite <- !app_assoc. auto.
Qed.

End BulkMore.

(** ** One mapping through [QueryBulk] and through [Query] *)

Section BulkVersusQuery.

Context {W : Type} (db : SQL W).

Lemma first_byte_not_select (c : ascii) (rest head : string) :
  slice_to 6 (String c rest) = Some head ->
  lower_byte c <> "s"%char ->
  ToLower head <> "select".
Proof.
  unfold slice_to. destruct (Nat.leb 6 (String.length (String c rest))); [|discriminate].
  intros [= <-] Hc. cbn [take_bytes ToLower]. intros [= H _]. contradiction.
Qed.

(** X20: For a statement both run as a mutation, [QueryBulk] with a single
    mapping and [Query] make the same calls to the backend, but read the
    receipt differently: [QueryBulk] takes the identifier and the count
    whatever errors come with them, [Query] returns such an error.  On a
    receipt without errors whose count fits an [int64] they return the same
    row. *)
Theorem QueryBulk_single_versus_Query (ctx : Context) (q : string)
        (pms : gmap string Value) (st st1 : State W) (c : ascii)
        (rest head : string) (ph : list string) (args : list Value)
        (stmt : Stmt) (r : SqlResult) (w2 : W) :
  convertQuery q = (String c rest, ph) ->
  slice_to 6 (String c rest) = Some head ->
  lower_byte c <> "s"%char ->
  reorderParameters pms ph = Ok args ->
  prepareStatement db ctx (String c rest) st = (Ret (Ok stmt), st1) ->
  stmt_Exec db stmt args (world st1) = (Ok r, w2) ->
  fst (QueryBulk db ctx q [pms] st)
  = Ret (Ok (formatResultSet (fst (LastInsertId r)) (wrap64 (fst (RowsAffected r)))))
  /\ fst (Query db ctx q pms st) = Ret (prepareResultSet r)
  /\ snd (QueryBulk db ctx q [pms] st) = snd (Query db ctx q pms st)
  /\ (snd (LastInsertId r) = None -> snd (RowsAffected r) = None ->
      (int64_min <= fst (RowsAffected r) <= int64_max)%Z ->
      fst (QueryBulk db ctx q [pms] st) = fst (Query db ctx q pms st)).
Proof.
  intros Hcq Hslice Hc Hre Hprep Hexec.
  pose proof (first_byte_not_select c rest head Hslice Hc) as Hnot.
  assert (Hb : QueryBulk db ctx q [pms] st
               = (Ret (Ok (formatResultSet (fst (LastInsertId r))
                                           (wrap64 (fst (RowsAffected r))))),
                  {| world := snd (stmt_Close db stmt w2);
                     trace := (trace st1 ++ [EvExec stmt args (Ok r)]) ++ [EvClose stmt] |})).
  { rewrite (QueryBulk_after_prepare db ctx q [pms] st st1 head stmt);
      try (rewrite ?Hcq; cbn [fst]; assumption).
    rewrite defer_Close_run, Hcq. cbn [snd bulk_loop]. rewrite Hre.
    unfold bind, Exec, call. rewrite Hexec. cbn [ret fst snd world trace].
    unfold add64. rewrite Z.add_0_l. reflexivity. }
  assert (Hq : Query db ctx q pms st
               = (Ret (prepareResultSet r),
                  {| world := snd (stmt_Close db stmt w2);
                     trace := (trace st1 ++ [EvExec stmt args (Ok r)]) ++ [EvClose stmt] |})).
  { unfold Query. rewrite Hcq, Hre. unfold bind at 1. rewrite Hprep.
    rewrite defer_Close_run.
    change (slice_to 1 (String c rest)) with (Some (String c "")).
    cbn [ToLower].
    change (String.eqb (String (lower_byte c) "") "s")
      with (Ascii.eqb (lower_byte c) "s" && true)%bool.
    apply Ascii.eqb_neq in Hc. rewrite Hc. cbn [andb].
    unfold bind, Exec, call. rewrite Hexec. reflexivity. }
  rewrite Hb, Hq. cbn [fst snd]. repeat split.
  intros H1 H2 Hrange. unfold prepareResultSet.
  destruct r as [[id e1] [aff e2]]. cbn [LastInsertId RowsAffected fst snd] in *.
  subst e1 e2. now rewrite wrap64_exact.
Qed.

End BulkVersusQuery.

(** ** Transactions *)

Section TransactionsMore.

Context {W : Type} (db : SQL W).

Lemma attachTx_binds_a_handle_aux (ctx ctx' : Context) (st st1 : State W) :
  attachTx db ctx st = (Ret (Ok ctx'), st1) -> exists tx, ctx_Value ctx' = Some tx.
Proof.
  unfold attachTx. destruct (ctx_Value ctx) as [tx|] eqn:Hctx.
  - intros [= <- <-]. eauto.
  - unfold bind, Begin, call.
    destruct (pool_Begin db (world st)) as [[tx|err] w1]; [|discriminate].
    intros [= <- <-]. exists tx. reflexivity.
Qed.

(** X21: [attachTx] hands back a context that carries a handle: the handle that
    was already bound, with the same context and no call to the backend, or
    else the handle of the one transaction it has just begun. *)
Theorem attachTx_binds_a_handle (ctx ctx' : Context) (st st1 : State W) :
  attachTx db ctx st = (Ret (Ok ctx'), st1) ->
  exists tx,
    ctx_Value ctx' = Some tx
    /\ ((ctx_Value ctx = Some tx /\ ctx' = ctx /\ st1 = st)
        \/ (ctx_Value ctx = None
            /\ exists w1,
                pool_Begin db (world st) = (Ok tx, w1)
                /\ st1 = {| world := w1; trace := trace st ++ [EvBegin (Ok tx)] |})).
Proof.
  unfold attachTx. destruct (ctx_Value ctx) as [tx|] eqn:Hctx.
  - intros [= <- <-]. exists tx. split; [exact Hctx|]. left. auto.
  - unfold bind, Begin, call.
    destruct (pool_Begin db (world st)) as [[tx|err] w1] eqn:Hb; [|discriminate].
    intros [= <- <-]. exists tx. split; [reflexivity|]. right. eauto.
Qed.

Lemma WrapInTx_attached {R} (ctx ctx' : Context) (tx : Tx)
      (fn : Context -> M W (R * option error)) (st st1 : State W) :
  attachTx db ctx st = (Ret (Ok ctx'), st1) ->
  ctx_Value ctx' = Some tx ->
  WrapInTx db ctx fn st
  = (r <- fn ctx' ;;
     match snd r with
     | Some err => _ <- Rollback db tx ;; ret (Err err)
     | None => _ <- Commit db tx ;; ret (Ok (fst r))
     end) st1.
Proof.
  intros Hatt Htx. unfold WrapInTx. unfold bind at 1. rewrite Hatt, Htx. reflexivity.
Qed.

(** X22: The resolve step of [WrapInTx]: when the function returns no error its
    value is returned and a commit is issued; when it returns an error that
    error is returned, the value is dropped and a rollback is issued.  What
    the commit or the rollback itself answers never reaches the caller: a
    failed commit still yields success. *)
Theorem WrapInTx_outcome {R} (ctx ctx' : Context)
        (fn : Context -> M W (R * option error)) (st st1 st2 : State W)
        (v : R) (e : option error) :
  attachTx db ctx st = (Ret (Ok ctx'), st1) ->
  fn ctx' st1 = (Ret (v, e), st2) ->
  exists tx,
    ctx_Value ctx' = Some tx
    /\ WrapInTx db ctx fn st
       = match e with
         | None => (Ret (Ok v),
                    {| world := snd (tx_Commit db tx (world st2));
                       trace := trace st2 ++ [EvCommit tx] |})
         | Some err => (Ret (Err err),
                        {| world := snd (tx_Rollback db tx (world st2));
                           trace := trace st2 ++ [EvRollback tx] |})
         end.
Proof.
  intros Hatt Hfn.
  destruct (attachTx_binds_a_handle_aux ctx ctx' st st1 Hatt) as [tx Htx].
  exists tx. split; [exact Htx|].
  rewrite (WrapInTx_attached ctx ctx' tx fn st st1 Hatt Htx).
  unfold bind at 1. rewrite Hfn. cbn [snd fst].
  destruct e as [err|]; unfold bind, Rollback, Commit, call, ret.
  - destruct (tx_Rollback db tx (world st2)) as [o w]. reflexivity.
  - destruct (tx_Commit db tx (world st2)) as [o w]. reflexivity.
Qed.

(** X23: [WrapInTx] has no recovery of its own: when the function panics, the
    panic goes through and the transaction is neither committed nor rolled
    back; the state is the one the function left. *)
Theorem WrapInTx_panic_leaves_transaction_open {R} (ctx ctx' : Context)
        (fn : Context -> M W (R * option error)) (st st1 st2 : State W)
        (msg : string) :
  attachTx db ctx st = (Ret (Ok ctx'), st1) ->
  fn ctx' st1 = (Panic msg, st2) ->
  WrapInTx db ctx fn st = (Panic msg, st2).
Proof.
  intros Hatt Hfn.
  destruct (attachTx_binds_a_handle_aux ctx ctx' st st1 Hatt) as [tx Htx].
  rewrite (WrapInTx_attached ctx ctx' tx fn st st1 Hatt Htx).
  unfold bind at 1. now rewrite Hfn.
Qed.

(** X24: The type assertion on the attached handle never fails: [WrapInTx]
    panics only if the function it runs does, and with that panic. *)
Theorem WrapInTx_panics_only_with_fn {R} (ctx : Context)
        (fn : Context -> M W (R * option error)) (st st' : State W) (msg : string) :
  WrapInTx db ctx fn st = (Panic msg, st') ->
  exists ctx' st1,
    attachTx db ctx st = (Ret (Ok ctx'), st1) /\ fn ctx' st1 = (Panic msg, st').
Proof.
  intros Hrun. unfold WrapInTx in Hrun. unfold bind at 1 in Hrun.
  destruct (attachTx db ctx st) as [[[ctx'|err]|m] st1] eqn:Hatt.
  - destruct (attachTx_binds_a_handle_aux ctx ctx' st st1 Hatt) as [tx Htx].
    rewrite Htx in Hrun. unfold bind at 1 in Hrun.
    destruct (fn ctx' st1) as [[[v e]|m] st2] eqn:Hfn.
    + exfalso. cbn [snd fst] in Hrun.
      destruct e; unfold bind, Rollback, Commit, call, ret in Hrun.
      * destruct (tx_Rollback db tx (world st2)); discriminate.
      * destruct (tx_Commit db tx (world st2)); discriminate.
    + injection Hrun as -> ->. eauto.
  - discriminate.
  - exfalso. unfold attachTx in Hatt. destruct (ctx_Value ctx); [discriminate|].
    unfold bind, Begin, call in Hatt.
    destruct (pool_Begin db (world st)) as [[tx|err] w1]; discriminate.
Qed.

(** *** Frames that only forward *)

Section Towers.

Context {R : Type} (nil : R).

(** The call every frame of a forwarding tower finalises with. *)
Lemma tower_participant (f : Context -> M W (R * option error))
      (ctx : Context) (tx : Tx) :
  ctx_Value ctx = Some tx ->
  tx_quiet (f ctx) ->
  forall (n : nat) (st : State W),
    exists p st',
      tower db nil n f ctx st = (Ret p, st')
      /\ tx_calls (trace st')
         = tx_calls (trace st)
           ++ repeat (match snd p with
                      | None => EvCommit tx
                      | Some _ => EvRollback tx
                      end) n
      /\ (exists v0 st0,
             f ctx st = (Ret (v0, snd p), st0) /\ (snd p = None -> fst p = v0)).
Proof.
  intros Hctx Hq. induction n as [|n IH]; intros st.
  - destruct (Hq st) as ([v e] & st' & Hrun & Hcalls).
    exists (v, e), st'. cbn [tower repeat snd fst]. rewrite app_nil_r.
    split; [exact Hrun|]. split; [exact Hcalls|].
    exists v, st'. split; [exact Hrun|reflexivity].
  - destruct (IH st) as ([v e] & st1 & Hrun & Hcalls & (v0 & st0 & Hf & Hv)).
    cbn [snd fst] in *.
    cbn [tower]. unfold bind at 1.
    assert (Hatt : attachTx db ctx st = (Ret (Ok ctx), st)).
    { unfold attachTx. now rewrite Hctx. }
    rewrite (WrapInTx_attached ctx ctx tx _ st st Hatt Hctx).
    unfold bind at 1. rewrite Hrun. cbn [snd fst].
    destruct e as [err|]; unfold bind, Rollback, Commit, call, ret.
    + destruct (tx_Rollback db tx (world st1)) as [o w].
      eexists (nil, Some err), _. split; [reflexivity|]. cbn [snd trace].
      rewrite tx_calls_snoc by reflexivity. rewrite Hcalls, <- app_assoc.
      split; [|exists v0, st0; split; [exact Hf|discriminate]].
      f_equal. cbn [repeat]. symmetry. apply repeat_cons.
    + destruct (tx_Commit db tx (world st1)) as [o w].
      eexists (v, None), _. split; [reflexivity|]. cbn [snd trace].
      rewrite tx_calls_snoc by reflexivity. rewrite Hcalls, <- app_assoc.
      split; [|exists v0, st0; split; [exact Hf|exact Hv]].
      f_equal. cbn [repeat]. symmetry. apply repeat_cons.
Qed.

(** X25: Nesting of any depth: under [WrapInTx] on a context without a handle,
    [n] frames that each only forward to [WrapInTx] around a unit of work
    that makes no transaction call of its own begin one transaction and
    issue [n + 1] finalising calls against it, all of the same kind: commits
    when the unit of work returned no error, rollbacks when it returned one,
    which is then what the outermost call returns. *)
Theorem tower_WrapInTx_calls (f : Context -> M W (R * option error))
        (ctx : Context) (st : State W) (tx : Tx) (w1 : W) (n : nat) :
  ctx_Value ctx = None ->
  pool_Begin db (world st) = (Ok tx, w1) ->
  tx_quiet (f (WithValue ctx tx)) ->
  exists (r : Res R) (st' : State W),
    WrapInTx db ctx (tower db nil n f) st = (Ret r, st')
    /\ tx_calls (trace st')
       = tx_calls (trace st) ++ EvBegin (Ok tx) :: repeat (finalise_call r tx) (S n)
    /\ (exists v0 e st0,
           f (WithValue ctx tx) {| world := w1; trace := trace st ++ [EvBegin (Ok tx)] |}
           = (Ret (v0, e), st0)
           /\ r = match e with None => Ok v0 | Some err => Err err end).
Proof.
  intros Hctx Hbegin Hq.
  set (ctx1 := WithValue ctx tx).
  set (st1 := {| world := w1; trace := trace st ++ [EvBegin (Ok tx)] |}).
  destruct (tower_participant f ctx1 tx eq_refl Hq n st1)
    as ([v e] & st2 & Hrun & Hcalls & (v0 & st0 & Hf & Hv)).
  cbn [snd fst] in *.
  assert (Hatt : attachTx db ctx st = (Ret (Ok ctx1), st1)).
  { unfold attachTx, bind, Begin, call, ret. now rewrite Hctx, Hbegin. }
  rewrite (WrapInTx_attached ctx ctx1 tx _ st st1 Hatt eq_refl).
  unfold bind at 1. rewrite Hrun. cbn [snd fst].
  destruct e as [err|]; unfold bind, Rollback, Commit, call, ret.
  - destruct (tx_Rollback db tx (world st2)) as [o w].
    eexists (Err err), _. split; [reflexivity|]. cbn [trace finalise_call].
    rewrite tx_calls_snoc by reflexivity. rewrite Hcalls. unfold st1. cbn [trace].
    rewrite tx_calls_snoc by reflexivity. rewrite <- !app_assoc. cbn [app].
    split; [|exists v0, (Some err), st0; split; [exact Hf|reflexivity]].
    do 2 f_equal. cbn [repeat]. symmetry. apply repeat_cons.
  - destruct (tx_Commit db tx (world st2)) as [o w].
    eexists (Ok v), _. split; [reflexivity|]. cbn [trace finalise_call].
    rewrite tx_calls_snoc by reflexivity. rewrite Hcalls. unfold st1. cbn [trace].
    rewrite tx_calls_snoc by reflexivity. rewrite <- !app_assoc. cbn [app].
    split; [|exists v0, None, st0; split; [exact Hf|now rewrite (Hv eq_refl)]].
    do 2 f_equal. cbn [repeat]. symmetry. apply repeat_cons.
Qed.

End Towers.

End TransactionsMore.

(** ** The further properties on the small backends *)

Import Mock Faulty.

Lemma reorderParameters_reads_listed_names_only_witness :
  reorderParameters (<["unused" := VInt64 7]> sample_params) ["name"; "password"]
  = reorderParameters sample_params ["name"; "password"].
Proof.
  apply reorderParameters_reads_listed_names_only.
  intros name Hin.
  repeat (apply elem_of_cons in Hin as [->|Hin]); try (vm_compute; reflexivity).
  inversion Hin.
Defined.

Lemma bind_translated_query_witness :
  reorderParameters sample_params (snd (convertQuery insert_sample))
  = Ok [VString "a"; VString "b"]
  /\ List.length [VString "a"; VString "b"]
     = count_byte "?" (fst (convertQuery insert_sample)).
Proof.
  split; [vm_compute; reflexivity|].
  refine (proj2 (proj2 (bind_translated_query insert_sample sample_params)
                       [VString "a"; VString "b"] _) _);
    vm_compute; reflexivity.
Defined.

Lemma formatResultSet_fields_witness :
  exists row : gmap string Value,
    formatResultSet 3 1 = [row] /\ row !! "id" = None.
Proof.
  destruct (formatResultSet_fields 3 1) as (row & Hrow & _ & _ & Hother).
  exists row. split; [exact Hrow|]. apply Hother; discriminate.
Defined.

Lemma prepareDataSet_rows_witness :
  exists (data : ResultSet) (row : gmap string Value),
    prepareDataSet {| Columns := ["id"; "name"];
                      scans := [Ok [VInt64 1; VString "a"]; Ok [VInt64 2; VString "b"]] |}
    = Ok data
    /\ List.length data = 2
    /\ data !! 1 = Some row
    /\ row !! "name" = Some (VString "b").
Proof.
  destruct (prepareDataSet_rows ["id"; "name"]
              [[VInt64 1; VString "a"]; [VInt64 2; VString "b"]])
    as (data & Hrun & Hlen & _ & Hrows).
  - apply NoDup_cons. split; [|apply NoDup_singleton].
    intros Hin. apply list_elem_of_singleton in Hin. discriminate.
  - destruct (Hrows 1 [VInt64 2; VString "b"] eq_refl) as (row & Hrow & Hcol & _).
    exists data, row. repeat split; try assumption.
    exact (Hcol 1 "name" eq_refl).
Defined.

Lemma fill_row_duplicate_column_witness :
  fill_row ["id"; "id"; "name"] [VInt64 1; VInt64 2; VString "a"] ∅ !! "id"
  = Some (VInt64 2).
Proof.
  refine (fill_row_duplicate_column ["id"] ["name"] "id"
            [VInt64 1; VInt64 2; VString "a"] _).
  intros Hin. apply list_elem_of_singleton in Hin. discriminate.
Defined.

Lemma Query_closes_statement_witness :
  exists evs,
    trace (snd (Query sql Background insert_sample sample_params start))
    = trace (prepared None "insert into sample(name, password) values (?, ?)")
      ++ evs ++ [EvClose 0]
    /\ List.length evs <= 1.
Proof.
  destruct (Query_closes_statement sql Background insert_sample sample_params start
              (prepared None "insert into sample(name, password) values (?, ?)")
              [VString "a"; VString "b"] 0)
    as (evs & Htr & Hlen & _); try (vm_compute; reflexivity).
  exists evs. split; assumption.
Defined.

Lemma Query_missing_parameter_witness :
  Query sql Background "update sample set name = ?name where id = ?id" sample_params start
  = (Ret (Err "mysql-adapter: parameter 'id' is missing"), start).
Proof.
  refine (Query_missing_parameter sql Background
            "update sample set name = ?name where id = ?id" sample_params start
            ["name"] "id" [] eq_refl _ eq_refl).
  intros name Hin. apply list_elem_of_singleton in Hin as ->. vm_compute. eauto.
Defined.

Lemma Query_prepare_failure_witness :
  Query Faulty.refusing Background
        "insert into non_existant_table(name) values (?name)" sample_params start
  = (Ret (Err Faulty.no_such_table),
     {| world := world start;
        trace := [EvPrepare None "insert into non_existant_table(name) values (?)"
                    (Err Faulty.no_such_table)] |}).
Proof.
  refine (proj1 (Query_prepare_failure Faulty.refusing Background
                   "insert into non_existant_table(name) values (?name)" sample_params
                   start _ [VString "a"] Faulty.no_such_table _ _));
    vm_compute; reflexivity.
Defined.

Lemma Query_read_path_witness :
  fst (Query sql Background " Select * from sample where name = ?name" sample_params start)
  = Ret (Ok []).
Proof.
  refine (proj2 (Query_read_path sql Background
                   " Select * from sample where name = ?name" sample_params start
                   (prepared None "Select * from sample where name = ?")
                   "S" "elect * from sample where name = ?" ["name"] [VString "a"] 0
                   _ _ _ _)
                ["id"; "name"; "password"] (bump (world start)) _);
    vm_compute; reflexivity.
Defined.

Lemma Query_mutation_path_witness :
  fst (Query sql Background insert_sample sample_params start)
  = Ret (Ok [ <["last_insert_id" := VInt64 1]> (<["affected_rows" := VInt64 1]> ∅) ]).
Proof.
  refine (Query_mutation_path sql Background insert_sample sample_params start
            (prepared None "insert into sample(name, password) values (?, ?)")
            "i" "nsert into sample(name, password) values (?, ?)"
            ["name"; "password"] [VString "a"; VString "b"] 0 _ _ _ _);
    try (vm_compute; reflexivity).
  vm_compute. discriminate.
Defined.

Lemma QueryBulk_calls_witness :
  exists evs,
    trace (snd (QueryBulk sql Background insert_sample [sample_params; sample_params] start))
    = trace start
      ++ [EvPrepare None (fst (convertQuery insert_sample)) (Ok 0)] ++ evs ++ [EvClose 0]
    /\ List.length evs = 2.
Proof.
  destruct (QueryBulk_calls sql Background insert_sample [sample_params; sample_params]
              start (prepared None (fst (convertQuery insert_sample))) "insert" 0)
    as (evs & Htr & _ & _ & Hok); try (vm_compute; reflexivity).
  { vm_compute. discriminate. }
  exists evs. split; [exact Htr|].
  apply (Hok (formatResultSet 2 2)). vm_compute. exact eq_refl.
Defined.

Lemma QueryBulk_bind_failure_mid_batch_witness :
  exists evs,
    QueryBulk sql Background insert_sample [sample_params; name_only; sample_params] start
    = (Ret (Err "mysql-adapter: parameter 'password' is missing"),
       {| world := snd (stmt_Close sql 0
                          {| begin_error := None; next_handle := 1; next_id := 1;
                             finished := [] |});
          trace := trace (prepared None (fst (convertQuery insert_sample)))
                   ++ evs ++ [EvClose 0] |})
    /\ List.length evs = 1.
Proof.
  destruct (QueryBulk_bind_failure_mid_batch sql Background insert_sample
              [sample_params] [sample_params] name_only start
              (prepared None (fst (convertQuery insert_sample))) "insert" 0
              [{| LastInsertId := (1%Z, None); RowsAffected := (1%Z, None) |}]
              {| begin_error := None; next_handle := 1; next_id := 1; finished := [] |}
              "mysql-adapter: parameter 'password' is missing")
    as (evs & Hrun & Hlen & _); try (vm_compute; reflexivity).
  { vm_compute. discriminate. }
  exists evs. split; assumption.
Defined.

Lemma QueryBulk_exec_failure_mid_batch_witness :
  exists evs,
    QueryBulk (failing_after 1) Background insert_sample
              [sample_params; sample_params; sample_params] start
    = (Ret (Err duplicate_entry),
       {| world := snd (stmt_Close (failing_after 1) 0
                          {| begin_error := None; next_handle := 1; next_id := 1;
                             finished := [] |});
          trace := trace (prepared None (fst (convertQuery insert_sample)))
                   ++ evs ++ [EvExec 0 [VString "a"; VString "b"] (Err duplicate_entry);
                              EvClose 0] |})
    /\ List.length evs = 1.
Proof.
  destruct (QueryBulk_exec_failure_mid_batch (failing_after 1) Background insert_sample
              [sample_params] [sample_params] sample_params start
              (prepared None (fst (convertQuery insert_sample))) "insert" 0
              [{| LastInsertId := (1%Z, None); RowsAffected := (1%Z, None) |}]
              {| begin_error := None; next_handle := 1; next_id := 1; finished := [] |}
              {| begin_error := None; next_handle := 1; next_id := 1; finished := [] |}
              [VString "a"; VString "b"] duplicate_entry)
    as (evs & Hrun & Hlen & _); try (vm_compute; reflexivity).
  { vm_compute. discriminate. }
  exists evs. split; assumption.
Defined.

Lemma QueryBulk_single_versus_Query_witness :
  fst (QueryBulk sql Background insert_sample [sample_params] start)
  = fst (Query sql Background insert_sample sample_params start).
Proof.
  refine (proj2 (proj2 (proj2
            (QueryBulk_single_versus_Query sql Background insert_sample sample_params start
               (prepared None "insert into sample(name, password) values (?, ?)")
               "i" "nsert into sample(name, password) values (?, ?)" "insert"
               ["name"; "password"] [VString "a"; VString "b"] 0
               {| LastInsertId := (1%Z, None); RowsAffected := (1%Z, None) |}
               {| begin_error := None; next_handle := 1; next_id := 1; finished := [] |}
               _ _ _ _ _ _))) eq_refl eq_refl _);
    try (vm_compute; reflexivity).
  - vm_compute. discriminate.
  - vm_compute. split; discriminate.
Defined.

Lemma attachTx_binds_a_handle_witness :
  exists tx, ctx_Value (WithValue Background 0) = Some tx.
Proof.
  destruct (attachTx_binds_a_handle sql Background (WithValue Background 0) start
              {| world := bump (world start); trace := [EvBegin (Ok 0)] |} eq_refl)
    as (tx & Htx & _).
  exists tx. exact Htx.
Defined.

Lemma WrapInTx_outcome_witness :
  exists tx,
    fst (WrapInTx sql Background outer_insert start)
    = Ret (Ok (formatResultSet 2 1))
    /\ fst (tx_Commit sql tx (world (snd (outer_insert (WithValue Background 0)
                {| world := bump (world start); trace := [EvBegin (Ok 0)] |}))))
       = Some tx_done.
Proof.
  destruct (WrapInTx_outcome sql Background (WithValue Background 0) outer_insert start
              {| world := bump (world start); trace := [EvBegin (Ok 0)] |}
              (snd (outer_insert (WithValue Background 0)
                      {| world := bump (world start); trace := [EvBegin (Ok 0)] |}))
              (formatResultSet 2 1) None eq_refl)
    as (tx & Htx & Hrun).
  - vm_compute. exact eq_refl.
  - injection Htx as <-. exists 0. rewrite Hrun. split; [reflexivity|].
    vm_compute. reflexivity.
Defined.

Lemma WrapInTx_panic_leaves_transaction_open_witness :
  fst (WrapInTx sql Background empty_query start) = Panic "slice bounds out of range"
  /\ count_ev is_finalise (trace (snd (WrapInTx sql Background empty_query start))) = 0.
Proof.
  rewrite (WrapInTx_panic_leaves_transaction_open sql Background (WithValue Background 0)
             empty_query start
             {| world := bump (world start); trace := [EvBegin (Ok 0)] |}
             (snd (empty_query (WithValue Background 0)
                     {| world := bump (world start); trace := [EvBegin (Ok 0)] |}))
             "slice bounds out of range" eq_refl);
    [split; vm_compute; reflexivity | vm_compute; reflexivity].
Defined.

Lemma WrapInTx_panics_only_with_fn_witness :
  exists ctx' st1,
    fst (empty_query ctx' st1) = Panic "slice bounds out of range".
Proof.
  destruct (WrapInTx_panics_only_with_fn sql Background empty_query start
              (snd (WrapInTx sql Background empty_query start))
              "slice bounds out of range")
    as (ctx' & st1 & _ & Hfn).
  - vm_compute. reflexivity.
  - exists ctx', st1. now rewrite Hfn.
Defined.

Lemma tower_WrapInTx_calls_witness :
  exists (r : Res ResultSet) st',
    WrapInTx sql Background (tower sql [] 3 inner_insert) start = (Ret r, st')
    /\ tx_calls (trace st')
       = tx_calls (trace start) ++ EvBegin (Ok 0) :: repeat (finalise_call r 0) 4.
Proof.
  destruct (tower_WrapInTx_calls sql [] inner_insert Background start 0
              (bump (world start)) 3 eq_refl eq_refl (inner_insert_quiet _))
    as (r & st' & Hrun & Hcalls & _).
  exists r, st'. split; assumption.
Defined.

